(** * Data Agent v5.0 (data_processor.py): a shallow embedding

    The chapter pipeline of [data_processor.py] is embedded function by
    function: [extract_entities], [disambiguate], [update_state],
    [insert_chapter_data] and [chunk_scenes].

    Conventions of the embedding.
    - A Python [str] is a Rocq [string] holding its UTF-8 bytes.  UTF-8 is
      self-synchronising, so [needle in haystack] on code points and the
      byte-wise search [str_in] agree on well-formed text.
    - A Python [dict] is an insertion-ordered association list ([Dict.t]):
      iteration order is observable in [update_state], which scans the type
      buckets in order and stops at the first hit.
    - A confidence score is a rational ([Q]); the thresholds are the decimal
      literals of the source.
    - A raised exception is a value of [error]; code that can raise returns
      a [result].
    - [datetime.now().isoformat()] reads an explicit [clock]. *)

From Stdlib Require Import String List Bool ZArith QArith Lia.
Import ListNotations.

Local Open Scope string_scope.
Local Open Scope list_scope.

(** ** Exceptions *)

Inductive error : Type :=
| KeyError (key : string)
| IndexError.

Inductive result (A : Type) : Type :=
| Ok (a : A)
| Err (e : error).

Arguments Ok {A} a.
Arguments Err {A} e.

Definition bind {A B : Type} (r : result A) (k : A -> result B) : result B :=
  match r with
  | Ok a => k a
  | Err e => Err e
  end.

Notation "x <- r ;; k" := (bind r (fun x => k))
  (at level 61, r at next level, right associativity).

Definition raises {A : Type} (r : result A) : Prop := exists e, r = Err e.

(** ** Insertion-ordered dictionaries with string keys *)

Module Dict.

Definition t (V : Type) : Type := list (string * V).

Section Ops.
Context {V : Type}.

(** [d.get(k)] *)
Fixpoint get (k : string) (d : t V) : option V :=
  match d with
  | [] => None
  | (k', v) :: rest => if String.eqb k k' then Some v else get k rest
  end.

(** [k in d] *)
Definition mem (k : string) (d : t V) : bool :=
  match get k d with
  | Some _ => true
  | None => false
  end.

(** [d[k] = v]: an existing key keeps its position, a new key goes last. *)
Fixpoint set (k : string) (v : V) (d : t V) : t V :=
  match d with
  | [] => [(k, v)]
  | (k', v') :: rest =>
      if String.eqb k k' then (k, v) :: rest else (k', v') :: set k v rest
  end.

(** [d.get(k, default)] *)
Definition get_default (k : string) (default : V) (d : t V) : V :=
  match get k d with
  | Some v => v
  | None => default
  end.

(** [d[k]] mutated in place by [f]; nothing happens when [k] is absent
    (every use below follows a membership test). *)
Fixpoint modify (k : string) (f : V -> V) (d : t V) : t V :=
  match d with
  | [] => []
  | (k', v) :: rest =>
      if String.eqb k k' then (k', f v) :: rest else (k', v) :: modify k f rest
  end.

(** [if k not in d: d[k] = v] *)
Definition setdefault (k : string) (v : V) (d : t V) : t V :=
  if mem k d then d else set k v d.

Definition keys (d : t V) : list string := map fst d.

Definition values (d : t V) : list V := map snd d.

End Ops.

End Dict.

(** ** Step C: disambiguation *)

(** One entry of [item['candidates']]. *)
Record candidate : Type := {
  cand_type : string;
  cand_id : string
}.

(** One uncertain mention.  The keys ['candidates'] and ['confidence'] may be
    absent from the dictionary; ['confidence'] is read with a default. *)
Record uncertain_item : Type := {
  u_mention : string;
  u_context : string;
  u_candidates : option (list candidate);
  u_confidence : option Q
}.

(** An entry of the [adopted] list. *)
Record adopted_entry : Type := {
  a_mention : string;
  a_adopted : string;
  a_confidence : Q;
  a_reason : string
}.

(** The two warning templates of [disambiguate], with the values their
    f-strings interpolate. *)
Inductive warning : Type :=
| MediumConfidence (mention adopted : string) (confidence : Q)
| NeedsManualReview (mention : string).

(** [a > b] on confidence scores. *)
Definition Qgtb (a b : Q) : bool := negb (Qle_bool a b).

(** [item.get('confidence', 0)] *)
Definition confidence_of (item : uncertain_item) : Q :=
  match u_confidence item with
  | Some c => c
  | None => 0%Q
  end.

(** [item['candidates'][0]['id']] *)
Definition top_candidate_id (item : uncertain_item) : result string :=
  match u_candidates item with
  | None => Err (KeyError "candidates")
  | Some [] => Err IndexError
  | Some (c :: _) => Ok (cand_id c)
  end.

Definition high_reason : string := "高置信度直接采用".
Definition medium_reason : string := "中置信度采用但记录警告".

(** The body of the [for item in uncertain] loop. *)
Definition disambiguate_step
    (acc : list adopted_entry * list warning) (item : uncertain_item)
  : result (list adopted_entry * list warning) :=
  let '(adopted, warnings) := acc in
  let confidence := confidence_of item in
  if Qgtb confidence 0.8%Q then
    top <- top_candidate_id item ;;
    Ok (adopted ++ [ {| a_mention := u_mention item;
                        a_adopted := top;
                        a_confidence := confidence;
                        a_reason := high_reason |} ],
        warnings)
  else if Qgtb confidence 0.5%Q then
    top <- top_candidate_id item ;;
    let adopted' := adopted ++ [ {| a_mention := u_mention item;
                                    a_adopted := top;
                                    a_confidence := confidence;
                                    a_reason := medium_reason |} ] in
    top' <- top_candidate_id item ;;
    Ok (adopted', warnings ++ [MediumConfidence (u_mention item) top' confidence])
  else
    Ok (adopted, warnings ++ [NeedsManualReview (u_mention item)]).

Fixpoint disambiguate_loop
    (uncertain : list uncertain_item) (acc : list adopted_entry * list warning)
  : result (list adopted_entry * list warning) :=
  match uncertain with
  | [] => Ok acc
  | item :: rest =>
      acc' <- disambiguate_step acc item ;;
      disambiguate_loop rest acc'
  end.

Definition disambiguate (uncertain : list uncertain_item)
  : result (list adopted_entry * list warning) :=
  disambiguate_loop uncertain ([], []).

(** ** Data model of the state store and of the proposals *)

(** A JSON scalar stored in an entity's [current] mapping. *)
Inductive value : Type :=
| VStr (s : string)
| VInt (n : Z).

Record history_record : Type := {
  h_chapter : Z;
  h_field : string;
  h_old : value;
  h_new : value;
  h_reason : string
}.

Record entity : Type := {
  e_id : string;
  e_canonical_name : string;
  e_aliases : list string;
  e_tier : string;
  e_desc : string;
  e_current : Dict.t value;
  e_history : list history_record;
  e_created_chapter : Z;
  e_first_appearance : string
}.

(** [entities_v3]: type -> id -> entity. *)
Definition bucket : Type := Dict.t entity.
Definition registry : Type := Dict.t bucket.

Record alias_ref : Type := {
  al_type : string;
  al_id : string
}.

Definition alias_index_t : Type := Dict.t (list alias_ref).

Record relationship : Type := {
  rel_from : string;
  rel_to : string;
  rel_type : string;
  rel_description : string;
  rel_chapter : Z;
  rel_created_at : string
}.

(** The document of [state.json].  [entities_v3] and [alias_index] are read
    with [state.get(key, {})] and always written back, so an absent key is the
    empty dictionary; ['relationships'] and ['metadata'] may be absent. *)
Record state : Type := {
  st_entities_v3 : registry;
  st_alias_index : alias_index_t;
  st_relationships : option (list relationship);
  st_metadata : option (Dict.t value)
}.

(** Proposals produced by [extract_entities]. *)
Record appeared_entity : Type := {
  ea_id : string;
  ea_type : string;
  ea_mentions : list string;
  ea_confidence : Q
}.

Record new_entity : Type := {
  ne_suggested_id : string;
  ne_name : string;
  ne_type : string;
  ne_tier : option string;
  ne_desc : option string
}.

Record state_change : Type := {
  sc_entity_id : string;
  sc_field : string;
  sc_old : value;
  sc_new : value;
  sc_reason : option string
}.

Record relationship_new : Type := {
  rn_from : string;
  rn_to : string;
  rn_type : string;
  rn_description : string
}.

Record extraction : Type := {
  entities_appeared : list appeared_entity;
  entities_new : list new_entity;
  state_changes : list state_change;
  relationships_new : list relationship_new;
  uncertain : list uncertain_item
}.

(** ** Step B: extraction *)

(** [needle in haystack] *)
Fixpoint str_in (needle haystack : string) : bool :=
  if String.prefix needle haystack then true
  else match haystack with
       | EmptyString => false
       | String _ rest => str_in needle rest
       end.

(** [if cond: xs.append(x)] as the list of what is appended. *)
Definition when {A : Type} (cond : bool) (xs : list A) : list A :=
  if cond then xs else [].

Definition yefan_appeared : appeared_entity :=
  {| ea_id := "yefan"; ea_type := "角色";
     ea_mentions := ["叶凡"; "他"]; ea_confidence := 0.95%Q |}.

Definition guwanqing_appeared : appeared_entity :=
  {| ea_id := "guwanqing"; ea_type := "角色";
     ea_mentions := ["顾晚晴"; "她"; "顾女士"]; ea_confidence := 0.95%Q |}.

Definition middle_woman_new : new_entity :=
  {| ne_suggested_id := "middle_woman"; ne_name := "中年妇女";
     ne_type := "角色"; ne_tier := Some "装饰";
     ne_desc := Some "街边举牌招租的中年妇女，态度敷衍" |}.

Definition jingya_community_new : new_entity :=
  {| ne_suggested_id := "jingya_community"; ne_name := "静雅小区";
     ne_type := "地点"; ne_tier := Some "重要";
     ne_desc := Some "老小区，干净整洁，有3号楼602室" |}.

Definition room_602_new : new_entity :=
  {| ne_suggested_id := "602_room"; ne_name := "602室";
     ne_type := "地点"; ne_tier := Some "重要";
     ne_desc := Some "顾晚晴的出租房次卧" |}.

Definition yefan_location_change : state_change :=
  {| sc_entity_id := "yefan"; sc_field := "location";
     sc_old := VStr "无处可去"; sc_new := VStr "静雅小区3号楼602室";
     sc_reason := Some "租房成功" |}.

Definition yefan_status_change : state_change :=
  {| sc_entity_id := "yefan"; sc_field := "status";
     sc_old := VStr "找工作"; sc_new := VStr "租房中";
     sc_reason := Some "成为租客" |}.

Definition guwanqing_location_change : state_change :=
  {| sc_entity_id := "guwanqing"; sc_field := "location";
     sc_old := VStr "顾晚晴的房产"; sc_new := VStr "静雅小区3号楼602室(房产)";
     sc_reason := Some "房子出租给叶凡" |}.

Definition landlord_tenant : relationship_new :=
  {| rn_from := "yefan"; rn_to := "guwanqing"; rn_type := "房东-租客";
     rn_description := "叶凡租住顾晚晴的房子" |}.

Definition that_gentleman : uncertain_item :=
  {| u_mention := "那位先生"; u_context := "中年妇女对叶凡的称呼";
     u_candidates := Some [ {| cand_type := "角色"; cand_id := "yefan" |} ];
     u_confidence := Some 0.85%Q |}.

(** [existing_entities] and [alias_to_entities] are only read into locals that
    the function never uses. *)
Definition extract_entities
    (chapter_content : string) (existing_entities : registry)
    (alias_to_entities : alias_index_t) : extraction :=
  {| entities_appeared :=
       when (str_in "叶凡" chapter_content) [yefan_appeared]
       ++ when (str_in "顾晚晴" chapter_content) [guwanqing_appeared];
     entities_new :=
       when (str_in "中年妇女" chapter_content && str_in "房东直租" chapter_content)
            [middle_woman_new]
       ++ when (str_in "静雅小区" chapter_content) [jingya_community_new]
       ++ when (str_in "602室" chapter_content || str_in "3号楼" chapter_content)
               [room_602_new];
     state_changes :=
       when (str_in "租房" chapter_content && str_in "加微信" chapter_content)
            [yefan_location_change; yefan_status_change]
       ++ when (str_in "租出去" chapter_content || str_in "还房贷" chapter_content)
               [guwanqing_location_change];
     relationships_new := [landlord_tenant];
     uncertain := [that_gentleman] |}.

(** ** Step D: merging into the state store *)

(** The clock: [now k] is the k-th reading of [datetime.now().isoformat()]
    made during one call. *)
Definition clock : Type := nat -> string.

Definition default_tier : string := "普通".

Definition initial_current : Dict.t value :=
  [ ("realm", VStr "普通人");
    ("location", VStr EmptyString);
    ("status", VStr EmptyString);
    ("last_chapter", VInt 1) ].

(** The record literal assigned to [entities_v3[entity_type][entity_id]]. *)
Definition fresh_entity (new_entity : new_entity) : entity :=
  {| e_id := ne_suggested_id new_entity;
     e_canonical_name := ne_name new_entity;
     e_aliases := [];
     e_tier := match ne_tier new_entity with Some t => t | None => default_tier end;
     e_desc := match ne_desc new_entity with Some d => d | None => EmptyString end;
     e_current := initial_current;
     e_history := [];
     e_created_chapter := 1;
     e_first_appearance := "正文/第0001章.md" |}.

(** Body of [for new_entity in entities_new], registry part. *)
Definition register_entity (new_entity : new_entity) (entities_v3 : registry)
  : registry :=
  let entity_id := ne_suggested_id new_entity in
  let entity_type := ne_type new_entity in
  let entities_v3 := Dict.setdefault entity_type [] entities_v3 in
  Dict.modify entity_type (Dict.set entity_id (fresh_entity new_entity)) entities_v3.

(** Body of [for new_entity in entities_new], alias index part. *)
Definition register_alias (new_entity : new_entity) (alias_index : alias_index_t)
  : alias_index_t :=
  let name := ne_name new_entity in
  let alias_index := Dict.setdefault name [] alias_index in
  Dict.modify name
    (fun refs => refs ++ [ {| al_type := ne_type new_entity;
                              al_id := ne_suggested_id new_entity |} ])
    alias_index.

Definition register_all (entities_new : list new_entity)
    (acc : registry * alias_index_t) : registry * alias_index_t :=
  fold_left
    (fun acc new_entity =>
       (register_entity new_entity (fst acc), register_alias new_entity (snd acc)))
    entities_new acc.

(** What one state change does to the entity it hits. *)
Definition change_entity (change : state_change) (ent : entity) : entity :=
  let field := sc_field change in
  let new_value := sc_new change in
  let old_value := Dict.get_default field (VStr EmptyString) (e_current ent) in
  let current := Dict.set field new_value (e_current ent) in
  let current := Dict.set "last_chapter" (VInt 1) current in
  {| e_id := e_id ent;
     e_canonical_name := e_canonical_name ent;
     e_aliases := e_aliases ent;
     e_tier := e_tier ent;
     e_desc := e_desc ent;
     e_current := current;
     e_history :=
       e_history ent
       ++ [ {| h_chapter := 1;
               h_field := field;
               h_old := old_value;
               h_new := new_value;
               h_reason := match sc_reason change with
                           | Some r => r
                           | None => EmptyString
                           end |} ];
     e_created_chapter := e_created_chapter ent;
     e_first_appearance := e_first_appearance ent |}.

(** The inner loop [for entity_type in entities_v3: ... break], returning the
    registry after the loop and the final value of the flag [found]. *)
Fixpoint apply_change (change : state_change) (entities_v3 : registry)
  : registry * bool :=
  match entities_v3 with
  | [] => ([], false)
  | (entity_type, entities) :: rest =>
      if Dict.mem (sc_entity_id change) entities then
        ((entity_type,
          Dict.modify (sc_entity_id change) (change_entity change) entities) :: rest,
         true)
      else
        let '(rest', found) := apply_change change rest in
        ((entity_type, entities) :: rest', found)
  end.

(** The loop [for change in state_changes]; [found] is never read. *)
Definition apply_changes (state_changes : list state_change)
    (entities_v3 : registry) : registry :=
  fold_left (fun entities_v3 change => fst (apply_change change entities_v3))
            state_changes entities_v3.

Definition make_relationship (created_at : string) (rel : relationship_new)
  : relationship :=
  {| rel_from := rn_from rel;
     rel_to := rn_to rel;
     rel_type := rn_type rel;
     rel_description := rn_description rel;
     rel_chapter := 1;
     rel_created_at := created_at |}.

(** The appended edges; the k-th one reads the clock for the k-th time. *)
Fixpoint stamp_relationships (now : clock) (k : nat)
    (relationships_new : list relationship_new) : list relationship :=
  match relationships_new with
  | [] => []
  | rel :: rest =>
      make_relationship (now k) rel :: stamp_relationships now (S k) rest
  end.

(** [update_state]; the returned document is the one dumped to [STATE_FILE].
    The only statement that can raise on a well-typed state is
    [state['metadata']['current_chapter'] = 1]. *)
Definition update_state (now : clock) (st : state)
    (entities_appeared : list appeared_entity)
    (entities_new : list new_entity)
    (state_changes : list state_change)
    (relationships_new : list relationship_new) : result state :=
  let '(entities_v3, alias_index) :=
    register_all entities_new (st_entities_v3 st, st_alias_index st) in
  let entities_v3 := apply_changes state_changes entities_v3 in
  let relationships :=
    match st_relationships st with
    | Some rels => rels
    | None => []
    end in
  let relationships :=
    relationships ++ stamp_relationships now 0 relationships_new in
  match st_metadata st with
  | None => Err (KeyError "metadata")
  | Some metadata =>
      let metadata := Dict.set "current_chapter" (VInt 1) metadata in
      let metadata :=
        Dict.set "updated_at" (VStr (now (length relationships_new))) metadata in
      Ok {| st_entities_v3 := entities_v3;
            st_alias_index := alias_index;
            st_relationships := Some relationships;
            st_metadata := Some metadata |}
  end.

(** ** Steps D and E: the relational index *)

Record scene : Type := {
  s_index : Z;
  s_start_line : Z;
  s_end_line : Z;
  s_location : string;
  s_summary : string;
  s_characters : list string
}.

(** A row of [chapters]; the JSON columns hold the value that is dumped. *)
Record chapter_row : Type := {
  ch_chapter : Z;
  ch_title : string;
  ch_location : string;
  ch_word_count : Z;
  ch_characters : list string;
  ch_scenes : list scene;
  ch_created_at : string
}.

Record appearance_row : Type := {
  ap_rowid : Z;
  ap_chapter : Z;
  ap_entity_id : string;
  ap_entity_type : string;
  ap_mentions : list string;
  ap_confidence : Q
}.

Record scene_row : Type := {
  sr_rowid : Z;
  sr_chapter : Z;
  sr_scene_index : Z;
  sr_location : string;
  sr_summary : string;
  sr_characters : list string;
  sr_start_line : Z;
  sr_end_line : Z
}.

(** [index.db]: the three tables and the AUTOINCREMENT counters of the two
    surrogate keys (the largest rowid handed out so far). *)
Record index_db : Type := {
  db_chapters : list chapter_row;
  db_entity_appearances : list appearance_row;
  db_appearances_seq : Z;
  db_scenes : list scene_row;
  db_scenes_seq : Z
}.

Definition empty_db : index_db :=
  {| db_chapters := []; db_entity_appearances := []; db_appearances_seq := 0;
     db_scenes := []; db_scenes_seq := 0 |}.

(** [INSERT OR REPLACE INTO chapters]: a row with the same primary key is
    deleted, then the new row is inserted. *)
Definition insert_or_replace_chapter (row : chapter_row)
    (rows : list chapter_row) : list chapter_row :=
  filter (fun r => negb (ch_chapter r =? ch_chapter row)%Z) rows ++ [row].

(** [INSERT INTO entity_appearances] for each appeared entity. *)
Fixpoint insert_appearances (chapter : Z) (seq : Z)
    (entities_appeared : list appeared_entity) : list appearance_row :=
  match entities_appeared with
  | [] => []
  | entity :: rest =>
      {| ap_rowid := seq + 1;
         ap_chapter := chapter;
         ap_entity_id := ea_id entity;
         ap_entity_type := ea_type entity;
         ap_mentions := ea_mentions entity;
         ap_confidence := ea_confidence entity |}
      :: insert_appearances chapter (seq + 1) rest
  end.

(** [INSERT INTO scenes] for each scene. *)
Fixpoint insert_scenes (chapter : Z) (seq : Z) (scenes : list scene)
  : list scene_row :=
  match scenes with
  | [] => []
  | scene :: rest =>
      {| sr_rowid := seq + 1;
         sr_chapter := chapter;
         sr_scene_index := s_index scene;
         sr_location := s_location scene;
         sr_summary := s_summary scene;
         sr_characters := s_characters scene;
         sr_start_line := s_start_line scene;
         sr_end_line := s_end_line scene |}
      :: insert_scenes chapter (seq + 1) rest
  end.

Definition insert_chapter_data (now : clock) (db : index_db)
    (chapter : Z) (title location : string) (word_count : Z)
    (entities_appeared : list appeared_entity) (scenes : list scene) : index_db :=
  let row :=
    {| ch_chapter := chapter;
       ch_title := title;
       ch_location := location;
       ch_word_count := word_count;
       ch_characters := map ea_id entities_appeared;
       ch_scenes := scenes;
       ch_created_at := now 0%nat |} in
  {| db_chapters := insert_or_replace_chapter row (db_chapters db);
     db_entity_appearances :=
       db_entity_appearances db
       ++ insert_appearances chapter (db_appearances_seq db) entities_appeared;
     db_appearances_seq :=
       db_appearances_seq db + Z.of_nat (length entities_appeared);
     db_scenes :=
       db_scenes db ++ insert_scenes chapter (db_scenes_seq db) scenes;
     db_scenes_seq := db_scenes_seq db + Z.of_nat (length scenes) |}.

Definition chunk_scenes (chapter_content : string) : list scene :=
  [ {| s_index := 1; s_start_line := 1; s_end_line := 50;
       s_location := "街头/写字楼";
       s_summary := "叶凡面试失败，漫无目的地走在街头，回忆家族破产的落魄处境。";
       s_characters := ["yefan"] |};
    {| s_index := 2; s_start_line := 51; s_end_line := 110;
       s_location := "街边";
       s_summary := "叶凡遇到举牌的中年妇女租房，被嫌弃价格高后离开。";
       s_characters := ["yefan"; "middle_woman"] |};
    {| s_index := 3; s_start_line := 111; s_end_line := 280;
       s_location := "静雅小区3号楼602室";
       s_summary := "叶凡联系顾晚晴看房，两人因规矩和房租问题产生摩擦，最终签约成功。叶凡调侃顾晚晴的手机壳。";
       s_characters := ["yefan"; "guwanqing"] |};
    {| s_index := 4; s_start_line := 281; s_end_line := 328;
       s_location := "静雅小区门口/街头";
       s_summary := "叶凡离开小区，望着只剩六百块的账户，感慨万千。";
       s_characters := ["yefan"] |} ].

(** ** The main flow, on the stored state and the index

    [main] reads the chapter and [state.json] (the alias map handed to the
    extraction is rebuilt from [alias_index]), then runs Steps B, C and D.
    [now_state] is the clock during [update_state], [now_index] the clock
    during [insert_chapter_data]. *)
Definition process_chapter (now_state now_index : clock)
    (chapter_content : string) (stored : state * index_db)
  : result (state * index_db) :=
  let '(st, db) := stored in
  let ex := extract_entities chapter_content (st_entities_v3 st) (st_alias_index st) in
  resolved <- disambiguate (uncertain ex) ;;
  st' <- update_state now_state st (entities_appeared ex) (entities_new ex)
              (state_changes ex) (relationships_new ex) ;;
  let scenes := chunk_scenes chapter_content in
  Ok (st',
      insert_chapter_data now_index db 1 "租房" "静雅小区" 4500
        (entities_appeared ex) scenes).

(** ** The resolver's policy, as specified *)

(** The confidence score [c] of a mention, read off the mention itself: the
    value under its ['confidence'] key, and 0 for a mention without the key. *)
Definition mention_score (item : uncertain_item) (c : Q) : Prop :=
  match u_confidence item with
  | Some stated => c = stated
  | None => c = 0%Q
  end.

(** The adopted entry for a mention with score [c] and top candidate [top]. *)
Definition adopted_entry_for (item : uncertain_item) (top : candidate) (c : Q)
    (reason : string) : adopted_entry :=
  {| a_mention := u_mention item;
     a_adopted := cand_id top;
     a_confidence := c;
     a_reason := reason |}.

(** The three-tier policy of the resolver, in the words of its contract:
    what one mention with confidence score [c] and top candidate [top]
    contributes to the adopted list and to the warning list. *)
Definition tier_policy (c : Q) (item : uncertain_item) (top : candidate)
    (out : list adopted_entry * list warning) : Prop :=
  ((0.8 < c)%Q ->
   out = ([adopted_entry_for item top c high_reason], []))
  /\ ((0.5 < c)%Q /\ (c <= 0.8)%Q ->
      out = ([adopted_entry_for item top c medium_reason],
             [MediumConfidence (u_mention item) (cand_id top) c]))
  /\ ((c <= 0.5)%Q ->
      out = ([], [NeedsManualReview (u_mention item)])).

Definition has_candidates (item : uncertain_item) : Prop :=
  exists top rest, u_candidates item = Some (top :: rest).

Definition adoption (item : uncertain_item) (top : candidate)
    (reason : string) : adopted_entry :=
  {| a_mention := u_mention item;
     a_adopted := cand_id top;
     a_confidence := confidence_of item;
     a_reason := reason |}.

(** A mention is classified when its contribution follows the policy at the
    mention's own score and top candidate. *)
Definition classified (item : uncertain_item)
    (out : list adopted_entry * list warning) : Prop :=
  exists c top rest,
    mention_score item c
    /\ u_candidates item = Some (top :: rest)
    /\ tier_policy c item top out.

(** Two mentions with the same surface form, the same confidence and the same
    candidates; their contexts may differ. *)
Definition same_input (item item' : uncertain_item) : Prop :=
  u_mention item = u_mention item'
  /\ u_confidence item = u_confidence item'
  /\ u_candidates item = u_candidates item'.

Definition manual_review (item : uncertain_item) : warning :=
  NeedsManualReview (u_mention item).

(** Sample mentions. *)
Definition yefan_candidate : candidate :=
  {| cand_type := "角色"; cand_id := "yefan" |}.

Definition mention_with (c : option Q) (cands : option (list candidate))
  : uncertain_item :=
  {| u_mention := "那位先生"; u_context := "中年妇女对叶凡的称呼";
     u_candidates := cands; u_confidence := c |}.

Definition high_mention : uncertain_item :=
  mention_with (Some 0.85%Q) (Some [yefan_candidate]).
Definition boundary_mention : uncertain_item :=
  mention_with (Some 0.8%Q) (Some [yefan_candidate]).
Definition medium_mention : uncertain_item :=
  mention_with (Some 0.6%Q) (Some [yefan_candidate]).
Definition low_mention : uncertain_item :=
  mention_with (Some 0.5%Q) (Some [yefan_candidate]).
Definition low_mention_no_candidate : uncertain_item :=
  mention_with (Some 0.3%Q) (Some []).
Definition high_mention_no_candidate : uncertain_item :=
  mention_with (Some 0.9%Q) (Some []).
Definition unscored_mention_no_candidate : uncertain_item :=
  mention_with None (Some []).
Definition unscored_mention_no_key : uncertain_item :=
  mention_with None None.

(** ** The extraction scenario, as specified *)

(** The six phrases of the scenario. *)
Definition scenario_text (text : string) : Prop :=
  str_in "叶凡" text = true /\ str_in "顾晚晴" text = true
  /\ str_in "静雅小区" text = true /\ str_in "602室" text = true
  /\ str_in "租房" text = true /\ str_in "加微信" text = true.

(** The two recognisers the scenario does not mention. *)
Definition mentions_middle_woman (text : string) : bool :=
  str_in "中年妇女" text && str_in "房东直租" text.

Definition mentions_letting (text : string) : bool :=
  str_in "租出去" text || str_in "还房贷" text.

Definition targets (entity_id : string) (change : state_change) : bool :=
  String.eqb (sc_entity_id change) entity_id.

Definition plain_scenario_text : string :=
  "叶凡找顾晚晴租房，静雅小区3号楼602室，加微信".

Definition busy_scenario_text : string :=
  "叶凡问中年妇女是不是房东直租；顾晚晴要还房贷，静雅小区602室租房，加微信".

(** ** The state store, as specified *)

(** The entity bound to [entity_id] in the bucket of [entity_type]. *)
Definition lookup (entity_type entity_id : string) (r : registry)
  : option entity :=
  match Dict.get entity_type r with
  | Some entities => Dict.get entity_id entities
  | None => None
  end.

(** The linear scan of the state-change loop: the first bucket, in order,
    that holds [entity_id], with the entity found there. *)
Fixpoint find_entity (entity_id : string) (r : registry)
  : option (string * entity) :=
  match r with
  | [] => None
  | (entity_type, entities) :: rest =>
      match Dict.get entity_id entities with
      | Some ent => Some (entity_type, ent)
      | None => find_entity entity_id rest
      end
  end.

(** Keys are unique within a dictionary (what a Python [dict] guarantees) and
    every entity is stored under its own id. *)
Definition bucket_wf (entities : bucket) : Prop :=
  NoDup (Dict.keys entities)
  /\ Forall (fun kv => e_id (snd kv) = fst kv) entities.

Definition registry_wf (r : registry) : Prop :=
  NoDup (Dict.keys r) /\ Forall (fun tb => bucket_wf (snd tb)) r.

(** The buckets and ids of a registry, in order. *)
Definition shape (r : registry) : list (string * list string) :=
  map (fun tb => (fst tb, Dict.keys (snd tb))) r.

(** The history record a state change writes for an entity. *)
Definition history_record_of (change : state_change) (ent : entity)
  : history_record :=
  {| h_chapter := 1;
     h_field := sc_field change;
     h_old := Dict.get_default (sc_field change) (VStr EmptyString) (e_current ent);
     h_new := sc_new change;
     h_reason := match sc_reason change with Some r => r | None => EmptyString end |}.

(** [new_entity] is registered under this type and id. *)
Definition registers (entity_type entity_id : string) (new_entity : new_entity)
  : bool :=
  String.eqb entity_type (ne_type new_entity)
  && String.eqb entity_id (ne_suggested_id new_entity).

(** The arguments of one call of [update_state]. *)
Record merge_input : Type := {
  mi_now : clock;
  mi_entities_appeared : list appeared_entity;
  mi_entities_new : list new_entity;
  mi_state_changes : list state_change;
  mi_relationships_new : list relationship_new
}.

Definition merge (m : merge_input) (st : state) : result state :=
  update_state (mi_now m) st (mi_entities_appeared m) (mi_entities_new m)
    (mi_state_changes m) (mi_relationships_new m).

(** Repeated merges, each on the state the previous one returned. *)
Fixpoint merge_all (ms : list merge_input) (st : state) : result state :=
  match ms with
  | [] => Ok st
  | m :: rest => st' <- merge m st ;; merge_all rest st'
  end.

(** The registry part of [update_state]. *)
Definition merge_registry (entities_new : list new_entity)
    (state_changes : list state_change) (r : registry) : registry :=
  apply_changes state_changes
    (fold_left (fun r new_entity => register_entity new_entity r) entities_new r).

(** ** Sample store *)

Definition sample_clock : clock := fun _ => "2024-01-01T00:00:00".

Definition yefan_first_record : history_record :=
  {| h_chapter := 0; h_field := "status"; h_old := VStr EmptyString;
     h_new := VStr "找工作"; h_reason := "开篇" |}.

Definition yefan_entity : entity :=
  {| e_id := "yefan";
     e_canonical_name := "叶凡";
     e_aliases := ["叶少"];
     e_tier := "核心";
     e_desc := "男主角";
     e_current := [("location", VStr "无处可去"); ("status", VStr "找工作")];
     e_history := [yefan_first_record];
     e_created_chapter := 0;
     e_first_appearance := "设定集" |}.

Definition stored_state : state :=
  {| st_entities_v3 := [("角色", [("yefan", yefan_entity)])];
     st_alias_index := [("叶凡", [ {| al_type := "角色"; al_id := "yefan" |} ])];
     st_relationships := None;
     st_metadata := Some [("current_chapter", VInt 0)] |}.

(** A proposal to register an entity under the id yefan already has. *)
Definition yefan_again : new_entity :=
  {| ne_suggested_id := "yefan"; ne_name := "叶凡"; ne_type := "角色";
     ne_tier := None; ne_desc := None |}.

(** A state change for an id that no bucket holds. *)
Definition ghost_change : state_change :=
  {| sc_entity_id := "ghost"; sc_field := "status"; sc_old := VStr EmptyString;
     sc_new := VStr "出场"; sc_reason := None |}.

Definition sample_merge : merge_input :=
  {| mi_now := sample_clock;
     mi_entities_appeared := [yefan_appeared];
     mi_entities_new := [jingya_community_new; yefan_again];
     mi_state_changes := [yefan_location_change; ghost_change];
     mi_relationships_new := [landlord_tenant] |}.

(** ** Reprocessing, as specified *)

(** An entity record without its history. *)
Definition forget_history (ent : entity) : entity :=
  {| e_id := e_id ent;
     e_canonical_name := e_canonical_name ent;
     e_aliases := e_aliases ent;
     e_tier := e_tier ent;
     e_desc := e_desc ent;
     e_current := e_current ent;
     e_history := [];
     e_created_chapter := e_created_chapter ent;
     e_first_appearance := e_first_appearance ent |}.

(** The state changes of a list applied in order to one entity. *)
Definition apply_to (state_changes : list state_change) (ent : entity) : entity :=
  fold_left (fun ent change => change_entity change ent) state_changes ent.

(** The assignments to [current] that a list of state changes performs. *)
Definition assignments (state_changes : list state_change)
  : list (string * value) :=
  flat_map (fun change => [(sc_field change, sc_new change);
                           ("last_chapter", VInt 1)])
           state_changes.

Definition assign_all (kvs : list (string * value)) (d : Dict.t value)
  : Dict.t value :=
  fold_left (fun d kv => Dict.set (fst kv) (snd kv) d) kvs d.

(** The first bucket of a shape that lists [entity_id]. *)
Fixpoint owner_in (entity_id : string) (sh : list (string * list string))
  : option string :=
  match sh with
  | [] => None
  | (entity_type, ids) :: rest =>
      if existsb (String.eqb entity_id) ids then Some entity_type
      else owner_in entity_id rest
  end.

Definition owner_is (entity_type entity_id : string)
    (sh : list (string * list string)) : bool :=
  match owner_in entity_id sh with
  | Some t => String.eqb t entity_type
  | None => false
  end.

(** The last proposal of a list that registers this type and id. *)
Fixpoint last_registration (entity_type entity_id : string)
    (entities_new : list new_entity) : option new_entity :=
  match entities_new with
  | [] => None
  | n :: rest =>
      match last_registration entity_type entity_id rest with
      | Some m => Some m
      | None => if registers entity_type entity_id n then Some n else None
      end
  end.

(** ** Sample runs of the main flow *)

Definition first_run : result (state * index_db) :=
  process_chapter sample_clock sample_clock plain_scenario_text
    (stored_state, empty_db).

Definition second_run : result (state * index_db) :=
  stored <- first_run ;;
  process_chapter sample_clock sample_clock plain_scenario_text stored.

(** An observation of a run that returned normally. *)
Definition observe {A B : Type} (f : A -> B) (r : result A) : option B :=
  match r with
  | Ok a => Some (f a)
  | Err _ => None
  end.

Definition history_length (entity_type entity_id : string)
    (stored : state * index_db) : option nat :=
  option_map (fun ent => length (e_history ent))
    (lookup entity_type entity_id (st_entities_v3 (fst stored))).

Definition relationship_count (stored : state * index_db) : option nat :=
  option_map (@length relationship) (st_relationships (fst stored)).

(** ** Step A: loading the context *)

(** Body of the inner loop [for m in mappings] of [load_context]. *)
Definition add_alias_mapping (alias : string) (alias_to_entities : alias_index_t)
    (m : alias_ref) : alias_index_t :=
  let alias_to_entities := Dict.setdefault alias [] alias_to_entities in
  Dict.modify alias
    (fun refs => refs ++ [ {| al_type := al_type m; al_id := al_id m |} ])
    alias_to_entities.

(** The loop [for alias, mappings in alias_index.items()]. *)
Definition build_alias_to_entities (alias_index : alias_index_t) : alias_index_t :=
  fold_left
    (fun acc entry => fold_left (add_alias_mapping (fst entry)) (snd entry) acc)
    alias_index [].

(** [load_context] on the document read from [STATE_FILE]. *)
Definition load_context (st : state) : state * registry * alias_index_t :=
  (st, st_entities_v3 st, build_alias_to_entities (st_alias_index st)).

(** ** Step D: creating the index *)

(** [create_index_db] on the content of [INDEX_DB]: [None] is a file without
    tables; the three [CREATE TABLE IF NOT EXISTS] make the empty tables, or
    leave existing ones alone.  (All three tables are created together, and
    nothing in the program drops one.) *)
Definition create_index_db (index_file : option index_db) : index_db :=
  match index_file with
  | Some db => db
  | None => empty_db
  end.

(** ** Step G: style samples *)

Record style_sample : Type := {
  ss_type : string;
  ss_content : string;
  ss_chapter : Z;
  ss_score : Q
}.

Definition evaluate_style_sample (review_score : Q) (chapter_content : string)
  : list style_sample :=
  if Qle_bool 80 review_score then
    when (str_in "手机壳" chapter_content)
         [ {| ss_type := "互动";
              ss_content := "叶凡调侃顾晚晴粉色手机壳的片段";
              ss_chapter := 1;
              ss_score := review_score |} ]
  else [].

(** ** Step H: the report *)

Record report_details : Type := {
  rd_entities_appeared : list appeared_entity;
  rd_entities_new : list new_entity;
  rd_state_changes : list state_change;
  rd_relationships_new : list relationship_new;
  rd_scenes : list scene;
  rd_uncertain : list uncertain_item;
  rd_adopted : list adopted_entry
}.

Record report : Type := {
  rp_chapter : Z;
  rp_entities_appeared : nat;
  rp_entities_new : nat;
  rp_state_changes : nat;
  rp_relationships_new : nat;
  rp_scenes_chunked : nat;
  rp_uncertain_resolved : nat;
  rp_warnings : list warning;
  rp_details : report_details;
  rp_processed_at : string
}.

Definition generate_report (now : clock) (chapter : Z)
    (entities_appeared : list appeared_entity) (entities_new : list new_entity)
    (state_changes : list state_change)
    (relationships_new : list relationship_new) (scenes : list scene)
    (uncertain : list uncertain_item) (warnings : list warning)
    (adopted : list adopted_entry) : report :=
  {| rp_chapter := chapter;
     rp_entities_appeared := length entities_appeared;
     rp_entities_new := length entities_new;
     rp_state_changes := length state_changes;
     rp_relationships_new := length relationships_new;
     rp_scenes_chunked := length scenes;
     rp_uncertain_resolved := length adopted;
     rp_warnings := warnings;
     rp_details :=
       {| rd_entities_appeared := entities_appeared;
          rd_entities_new := entities_new;
          rd_state_changes := state_changes;
          rd_relationships_new := relationships_new;
          rd_scenes := scenes;
          rd_uncertain := uncertain;
          rd_adopted := adopted |};
     rp_processed_at := now 0%nat |}.

(** ** [main]

    What [main] leaves behind and returns: the state document, the index, the
    style samples and the report.  The three clocks are those of
    [update_state], [insert_chapter_data] and [generate_report]. *)
Record main_result : Type := {
  mr_state : state;
  mr_index : index_db;
  mr_style_samples : list style_sample;
  mr_report : report
}.

Definition main (now_state now_index now_report : clock)
    (chapter_content : string) (state_file : state)
    (index_file : option index_db) : result main_result :=
  let '(st, existing_entities, alias_to_entities) := load_context state_file in
  let ex := extract_entities chapter_content existing_entities alias_to_entities in
  resolved <- disambiguate (uncertain ex) ;;
  st' <- update_state now_state st (entities_appeared ex) (entities_new ex)
           (state_changes ex) (relationships_new ex) ;;
  let db := create_index_db index_file in
  let scenes := chunk_scenes chapter_content in
  let db' :=
    insert_chapter_data now_index db 1 "租房" "静雅小区" 4500
      (entities_appeared ex) scenes in
  let style_samples := evaluate_style_sample 80 chapter_content in
  Ok {| mr_state := st';
        mr_index := db';
        mr_style_samples := style_samples;
        mr_report :=
          generate_report now_report 1 (entities_appeared ex) (entities_new ex)
            (state_changes ex) (relationships_new ex) scenes (uncertain ex)
            (snd resolved) (fst resolved) |}.

(** ** More on the resolver, as observed *)

(** The mention is in one of the two adopting tiers. *)
Definition adopts (item : uncertain_item) : bool :=
  Qgtb (confidence_of item) 0.5%Q.

(** The mention is in one of the two warning tiers. *)
Definition warns (item : uncertain_item) : bool :=
  negb (Qgtb (confidence_of item) 0.8%Q).

(** The exception that reading the top candidate of this mention raises, if
    the mention is in an adopting tier and has no top candidate. *)
Definition blocking_error (item : uncertain_item) : option error :=
  if adopts item then
    match u_candidates item with
    | None => Some (KeyError "candidates")
    | Some [] => Some IndexError
    | Some (_ :: _) => None
    end
  else None.

Definition is_manual_review (w : warning) : bool :=
  match w with
  | NeedsManualReview _ => true
  | MediumConfidence _ _ _ => false
  end.

Definition mention_without_key : uncertain_item :=
  mention_with (Some 0.9%Q) None.

(** ** More sample data *)

(** A stored document whose alias index lists an alias without mappings. *)
Definition state_with_empty_alias : state :=
  {| st_entities_v3 := st_entities_v3 stored_state;
     st_alias_index :=
       [("叶凡", [ {| al_type := "角色"; al_id := "yefan" |} ]);
        ("叶少", []);
        ("小区", [ {| al_type := "地点"; al_id := "jingya_community" |};
                   {| al_type := "地点"; al_id := "old_community" |} ])];
     st_relationships := None;
     st_metadata := Some [("current_chapter", VInt 0)] |}.

(** A stored document without its ['metadata'] key. *)
Definition state_without_metadata : state :=
  {| st_entities_v3 := st_entities_v3 stored_state;
     st_alias_index := st_alias_index stored_state;
     st_relationships := st_relationships stored_state;
     st_metadata := None |}.

(** The alias reference that registering a new entity appends. *)
Definition alias_ref_of (new_entity : new_entity) : alias_ref :=
  {| al_type := ne_type new_entity; al_id := ne_suggested_id new_entity |}.

(** What a relationship edge keeps of the proposal it was made from. *)
Definition edge_of (rel : relationship) : relationship_new :=
  {| rn_from := rel_from rel; rn_to := rel_to rel; rn_type := rel_type rel;
     rn_description := rel_description rel |}.

(** The relationship list of a document; a missing key reads as empty. *)
Definition relationships_of (st : state) : list relationship :=
  match st_relationships st with
  | Some rels => rels
  | None => []
  end.

(** ** The state-change loop, as observed *)

(** The value of the last state change of a list that names [field]. *)
Fixpoint last_value (field : string) (state_changes : list state_change)
  : option value :=
  match state_changes with
  | [] => None
  | change :: rest =>
      match last_value field rest with
      | Some v => Some v
      | None =>
          if String.eqb field (sc_field change) then Some (sc_new change)
          else None
      end
  end.

(** The last value a list of assignments gives to a key. *)
Fixpoint last_assignment (k : string) (kvs : list (string * value))
  : option value :=
  match kvs with
  | [] => None
  | kv :: rest =>
      match last_assignment k rest with
      | Some v => Some v
      | None => if String.eqb k (fst kv) then Some (snd kv) else None
      end
  end.

(** A registry that stores the id yefan under two types. *)
Definition yefan_as_item : entity :=
  {| e_id := "yefan";
     e_canonical_name := "叶凡的名片";
     e_aliases := [];
     e_tier := "装饰";
     e_desc := "一张名片";
     e_current := [("location", VStr "口袋")];
     e_history := [];
     e_created_chapter := 0;
     e_first_appearance := "设定集" |}.

Definition registry_with_shared_id : registry :=
  [("角色", [("yefan", yefan_entity)]);
   ("物品", [("yefan", yefan_as_item)])].

(** ** The index, as observed *)

(** Keys of the index: chapter numbers are unique in [chapters]; the
    surrogate keys of the two other tables are unique, positive and no larger
    than the table's AUTOINCREMENT counter. *)
Definition index_keys_ok (db : index_db) : Prop :=
  NoDup (map ch_chapter (db_chapters db))
  /\ NoDup (map ap_rowid (db_entity_appearances db))
  /\ Forall (fun row => (0 < ap_rowid row <= db_appearances_seq db)%Z)
            (db_entity_appearances db)
  /\ NoDup (map sr_rowid (db_scenes db))
  /\ Forall (fun row => (0 < sr_rowid row <= db_scenes_seq db)%Z) (db_scenes db)
  /\ (0 <= db_appearances_seq db)%Z /\ (0 <= db_scenes_seq db)%Z.

(** What an appearance row keeps of the appeared entity. *)
Definition appeared_of (row : appearance_row) : appeared_entity :=
  {| ea_id := ap_entity_id row; ea_type := ap_entity_type row;
     ea_mentions := ap_mentions row; ea_confidence := ap_confidence row |}.

(** What a scene row keeps of the scene. *)
Definition scene_of (row : scene_row) : scene :=
  {| s_index := sr_scene_index row; s_start_line := sr_start_line row;
     s_end_line := sr_end_line row; s_location := sr_location row;
     s_summary := sr_summary row; s_characters := sr_characters row |}.

(** An index that already holds chapter 2. *)
Definition index_with_chapter_2 : index_db :=
  insert_chapter_data sample_clock empty_db 2 "搬家" "静雅小区" 3900
    [guwanqing_appeared] (chunk_scenes EmptyString).

(** * Properties *)

(** ** Dictionaries *)

Module DictFacts.

Section Facts.
Context {V : Type}.
Implicit Types (d : Dict.t V) (k : string) (v : V).

Lemma get_set_eq k v d : Dict.get k (Dict.set k v d) = Some v.
Proof.
  induction d as [|[k' v'] rest IH]; simpl.
  - now rewrite String.eqb_refl.
  - destruct (String.eqb k k') eqn:E; simpl.
    + now rewrite String.eqb_refl.
    + now rewrite E.
Qed.

Lemma get_set_ne k k' v d :
  k <> k' -> Dict.get k' (Dict.set k v d) = Dict.get k' d.
Proof.
  intros Hne. induction d as [|[k0 v0] rest IH]; simpl.
  - destruct (String.eqb k' k) eqn:E; [|reflexivity].
    apply String.eqb_eq in E. congruence.
  - destruct (String.eqb k k0) eqn:E; simpl.
    + apply String.eqb_eq in E. subst k0.
      destruct (String.eqb k' k) eqn:E'; [|reflexivity].
      apply String.eqb_eq in E'. congruence.
    + now rewrite IH.
Qed.

Lemma get_modify_eq k (f : V -> V) d :
  Dict.get k (Dict.modify k f d) = option_map f (Dict.get k d).
Proof.
  induction d as [|[k' v'] rest IH]; simpl; [reflexivity|].
  destruct (String.eqb k k') eqn:E; simpl; now rewrite E.
Qed.

Lemma get_modify_ne k k' (f : V -> V) d :
  k <> k' -> Dict.get k' (Dict.modify k f d) = Dict.get k' d.
Proof.
  intros Hne. induction d as [|[k0 v0] rest IH]; simpl; [reflexivity|].
  destruct (String.eqb k k0) eqn:E; simpl.
  - apply String.eqb_eq in E. subst k0.
    destruct (String.eqb k' k) eqn:E'; [|reflexivity].
    apply String.eqb_eq in E'. congruence.
  - now rewrite IH.
Qed.

Lemma keys_modify k (f : V -> V) d :
  Dict.keys (Dict.modify k f d) = Dict.keys d.
Proof.
  unfold Dict.keys. induction d as [|[k' v'] rest IH]; simpl; [reflexivity|].
  destruct (String.eqb k k'); simpl; [reflexivity|]. now rewrite IH.
Qed.

Lemma mem_true_iff k d : Dict.mem k d = true <-> In k (Dict.keys d).
Proof.
  unfold Dict.mem, Dict.keys.
  induction d as [|[k' v'] rest IH]; simpl.
  - split; [discriminate | tauto].
  - destruct (String.eqb k k') eqn:E.
    + apply String.eqb_eq in E. subst. tauto.
    + apply String.eqb_neq in E. rewrite IH. split; [tauto|].
      intros [H|H]; [congruence | exact H].
Qed.

Lemma mem_false_iff k d : Dict.mem k d = false <-> ~ In k (Dict.keys d).
Proof.
  rewrite <- mem_true_iff. destruct (Dict.mem k d); split; congruence.
Qed.

Lemma keys_set_present k v d :
  Dict.mem k d = true -> Dict.keys (Dict.set k v d) = Dict.keys d.
Proof.
  unfold Dict.mem, Dict.keys.
  induction d as [|[k' v'] rest IH]; simpl; [discriminate|].
  destruct (String.eqb k k') eqn:E; simpl.
  - apply String.eqb_eq in E. now subst.
  - intros H. now rewrite IH.
Qed.

Lemma keys_set_absent k v d :
  Dict.mem k d = false -> Dict.keys (Dict.set k v d) = Dict.keys d ++ [k].
Proof.
  unfold Dict.mem, Dict.keys.
  induction d as [|[k' v'] rest IH]; simpl; [reflexivity|].
  destruct (String.eqb k k') eqn:E; simpl; [discriminate|].
  intros H. now rewrite IH.
Qed.

Lemma nodup_keys_set k v d :
  NoDup (Dict.keys d) -> NoDup (Dict.keys (Dict.set k v d)).
Proof.
  intros Hnd. destruct (Dict.mem k d) eqn:E.
  - now rewrite keys_set_present.
  - rewrite keys_set_absent by exact E.
    apply mem_false_iff in E.
    apply NoDup_app; [exact Hnd | constructor; [simpl; tauto | constructor] |].
    intros x Hx [Hk|[]]. subst. tauto.
Qed.

Lemma in_set k v d kv :
  In kv (Dict.set k v d) -> kv = (k, v) \/ In kv d.
Proof.
  induction d as [|[k' v'] rest IH]; simpl.
  - intros [H|[]]; auto.
  - destruct (String.eqb k k'); simpl; intros [H|H]; auto.
    destruct (IH H); auto.
Qed.

Lemma in_modify k (f : V -> V) d kv :
  In kv (Dict.modify k f d) ->
  In kv d \/ exists v, In (fst kv, v) d /\ fst kv = k /\ snd kv = f v.
Proof.
  induction d as [|[k' v'] rest IH]; simpl; [tauto|].
  destruct (String.eqb k k') eqn:E; simpl; intros [H|H]; auto.
  - apply String.eqb_eq in E. subst. right. exists v'. simpl. auto.
  - destruct (IH H) as [H'|[v0 [H1 H2]]]; auto.
    right. exists v0. auto.
Qed.

Lemma setdefault_get_present k v d :
  Dict.mem k d = true -> Dict.setdefault k v d = d.
Proof. unfold Dict.setdefault. now intros ->. Qed.

Lemma mem_setdefault k v d : Dict.mem k (Dict.setdefault k v d) = true.
Proof.
  unfold Dict.setdefault. destruct (Dict.mem k d) eqn:E; [exact E|].
  unfold Dict.mem. now rewrite get_set_eq.
Qed.

Lemma get_setdefault_ne k k' v d :
  k <> k' -> Dict.get k' (Dict.setdefault k v d) = Dict.get k' d.
Proof.
  intros Hne. unfold Dict.setdefault.
  destruct (Dict.mem k d); [reflexivity|]. now apply get_set_ne.
Qed.

Lemma get_setdefault_eq k v d :
  Dict.get k (Dict.setdefault k v d) = Some (Dict.get_default k v d).
Proof.
  unfold Dict.setdefault, Dict.get_default, Dict.mem.
  destruct (Dict.get k d) eqn:E; [exact E|]. apply get_set_eq.
Qed.

Lemma nodup_keys_setdefault k v d :
  NoDup (Dict.keys d) -> NoDup (Dict.keys (Dict.setdefault k v d)).
Proof.
  unfold Dict.setdefault. destruct (Dict.mem k d); [tauto|].
  apply nodup_keys_set.
Qed.

End Facts.

End DictFacts.

(** ** Disambiguation *)

Lemma Qgtb_true_iff (a b : Q) : Qgtb a b = true <-> (b < a)%Q.
Proof.
  unfold Qgtb. rewrite negb_true_iff.
  split.
  - intros H. apply Qnot_le_lt. intros Hle.
    apply Qle_bool_iff in Hle. congruence.
  - intros H. destruct (Qle_bool a b) eqn:E; [|reflexivity].
    apply Qle_bool_iff in E. exfalso. exact (Qlt_not_le _ _ H E).
Qed.

Lemma Qgtb_false_iff (a b : Q) : Qgtb a b = false <-> (a <= b)%Q.
Proof.
  unfold Qgtb. rewrite negb_false_iff. apply Qle_bool_iff.
Qed.

Lemma Qlt_le_absurd (a b : Q) : (a < b)%Q -> (b <= a)%Q -> False.
Proof. intros Hlt Hle. exact (Qlt_not_le _ _ Hlt Hle). Qed.

Lemma half_below_upper (c : Q) : (c <= 0.5)%Q -> (0.8 < c)%Q -> False.
Proof.
  intros Hle Hlt. apply (Qlt_le_absurd _ _ Hlt).
  eapply Qle_trans; [exact Hle | discriminate].
Qed.

Lemma mention_score_exists item : exists c, mention_score item c.
Proof.
  unfold mention_score. destruct (u_confidence item) as [stated|]; eauto.
Qed.

Lemma mention_score_confidence item c :
  mention_score item c -> confidence_of item = c.
Proof.
  unfold mention_score, confidence_of.
  destruct (u_confidence item); intros ->; reflexivity.
Qed.

Lemma disambiguate_step_policy acc item c top rest :
  mention_score item c ->
  u_candidates item = Some (top :: rest) ->
  exists out,
    disambiguate_step acc item = Ok (fst acc ++ fst out, snd acc ++ snd out)
    /\ tier_policy c item top out.
Proof.
  intros Hs Hc. apply mention_score_confidence in Hs.
  destruct acc as [adopted warnings].
  unfold disambiguate_step, top_candidate_id. rewrite Hc, Hs. cbn [bind fst snd].
  destruct (Qgtb c 0.8) eqn:Hhi.
  - apply Qgtb_true_iff in Hhi.
    exists ([adopted_entry_for item top c high_reason], []). cbn [fst snd].
    rewrite app_nil_r. split; [reflexivity|].
    split; [|split].
    + reflexivity.
    + intros [_ Hle]. destruct (Qlt_le_absurd _ _ Hhi Hle).
    + intros Hle. destruct (half_below_upper _ Hle Hhi).
  - apply Qgtb_false_iff in Hhi.
    destruct (Qgtb c 0.5) eqn:Hmid.
    + apply Qgtb_true_iff in Hmid.
      exists ([adopted_entry_for item top c medium_reason],
              [MediumConfidence (u_mention item) (cand_id top) c]).
      cbn [fst snd]. split; [reflexivity|].
      split; [|split].
      * intros Hgt. destruct (Qlt_le_absurd _ _ Hgt Hhi).
      * reflexivity.
      * intros Hle. destruct (Qlt_le_absurd _ _ Hmid Hle).
    + apply Qgtb_false_iff in Hmid.
      exists ([], [NeedsManualReview (u_mention item)]). cbn [fst snd].
      rewrite app_nil_r. split; [reflexivity|].
      split; [|split].
      * intros Hgt. destruct (half_below_upper _ Hmid Hgt).
      * intros [Hgt _]. destruct (Qlt_le_absurd _ _ Hgt Hmid).
      * reflexivity.
Qed.

Lemma disambiguate_loop_policy uncertain :
  Forall has_candidates uncertain ->
  forall acc,
  exists outs,
    disambiguate_loop uncertain acc
    = Ok (fst acc ++ concat (map fst outs), snd acc ++ concat (map snd outs))
    /\ Forall2 classified uncertain outs.
Proof.
  induction 1 as [|item l [top [rest Hc]] _ IH]; intros acc.
  - exists []. simpl. rewrite !app_nil_r. destruct acc. split; [reflexivity|constructor].
  - destruct (mention_score_exists item) as [c Hs].
    destruct (disambiguate_step_policy acc item c top rest Hs Hc)
      as [out [Hstep Hpol]].
    destruct (IH (fst acc ++ fst out, snd acc ++ snd out)) as [outs [Hloop Hall]].
    exists (out :: outs). split.
    + simpl. rewrite Hstep. cbn [bind]. rewrite Hloop. cbn [fst snd].
      now rewrite <- !app_assoc.
    + constructor; [|exact Hall]. exists c, top, rest.
      split; [exact Hs | split; [exact Hc | exact Hpol]].
Qed.

(** The loop reads of a mention only its surface form, its confidence and
    its candidates. *)
Lemma disambiguate_loop_same_input uncertain uncertain' :
  Forall2 same_input uncertain uncertain' ->
  forall acc, disambiguate_loop uncertain' acc = disambiguate_loop uncertain acc.
Proof.
  induction 1 as [|item item' l l' (Hm & Hconf & Hcand) _ IH]; intros acc.
  - reflexivity.
  - cbn [disambiguate_loop].
    assert (Hstep : disambiguate_step acc item' = disambiguate_step acc item).
    { destruct acc as [adopted warnings].
      unfold disambiguate_step, top_candidate_id, confidence_of.
      now rewrite Hm, Hconf, Hcand. }
    rewrite Hstep.
    destruct (disambiguate_step acc item) as [acc'|e]; cbn [bind]; [apply IH|].
    reflexivity.
Qed.

(** C1.  On a list of uncertain mentions that all have a non-empty candidate
    list, [disambiguate] returns normally, and its two result lists are the
    concatenation, in input order, of one contribution per mention, fixed by
    the mention's own confidence score [c] (the value under its confidence
    key): above 0.8 exactly the top candidate adopted and no warning; above
    0.5 and at most 0.8 exactly the top candidate adopted and exactly one
    warning; at most 0.5 nothing adopted and exactly one manual-review
    warning.  The result is determined by the mentions' surface forms,
    confidences and candidates: any input that agrees on these yields the
    identical adopted list and the identical warnings. *)
Theorem disambiguate_three_tiers (uncertain : list uncertain_item) :
  Forall has_candidates uncertain ->
  (exists outs,
      disambiguate uncertain = Ok (concat (map fst outs), concat (map snd outs))
      /\ Forall2 classified uncertain outs)
  /\ (forall uncertain',
         Forall2 same_input uncertain uncertain' ->
         disambiguate uncertain' = disambiguate uncertain).
Proof.
  intros Hall. split.
  - destruct (disambiguate_loop_policy uncertain Hall ([], [])) as [outs [H1 H2]].
    exists outs. split; [exact H1 | exact H2].
  - intros uncertain' Hsame. unfold disambiguate.
    now apply disambiguate_loop_same_input.
Qed.

Lemma disambiguate_three_tiers_witness :
  Forall has_candidates [high_mention; medium_mention; low_mention]
  /\ disambiguate [high_mention; medium_mention; low_mention]
     = Ok ([ {| a_mention := "那位先生"; a_adopted := "yefan";
                a_confidence := 0.85%Q; a_reason := high_reason |};
             {| a_mention := "那位先生"; a_adopted := "yefan";
                a_confidence := 0.6%Q; a_reason := medium_reason |} ],
           [ MediumConfidence "那位先生" "yefan" 0.6%Q;
             NeedsManualReview "那位先生" ]).
Proof.
  assert (H : Forall has_candidates [high_mention; medium_mention; low_mention]).
  { repeat constructor; exists yefan_candidate, []; reflexivity. }
  split; [exact H|].
  destruct (proj1 (disambiguate_three_tiers _ H)) as (outs & Hrun & Hcls).
  rewrite Hrun. clear Hrun.
  inversion Hcls as [|i1 o1 l1 outs1 C1 Hcls1]; subst.
  inversion Hcls1 as [|i2 o2 l2 outs2 C2 Hcls2]; subst.
  inversion Hcls2 as [|i3 o3 l3 outs3 C3 Hcls3]; subst.
  inversion Hcls3; subst.
  destruct C1 as (c1 & t1 & r1 & S1 & K1 & (P1 & _ & _)).
  destruct C2 as (c2 & t2 & r2 & S2 & K2 & (_ & P2 & _)).
  destruct C3 as (c3 & t3 & r3 & S3 & K3 & (_ & _ & P3)).
  cbv in S1, S2, S3. subst c1 c2 c3.
  injection K1 as <- <-. injection K2 as <- <-. injection K3 as <- <-.
  rewrite P1 by reflexivity.
  rewrite P2 by (split; [reflexivity | discriminate]).
  rewrite P3 by discriminate.
  reflexivity.
Defined.

(** C2 (as the code has it).  A mention whose confidence is exactly 0.8 and
    whose candidate list is non-empty is adopted with the top candidate and
    exactly one medium-confidence warning: the comparison with 0.8 is strict,
    so 0.8 itself belongs to the middle tier. *)
Theorem disambiguate_at_upper_threshold item top rest c :
  u_confidence item = Some c ->
  (c == 0.8)%Q ->
  u_candidates item = Some (top :: rest) ->
  disambiguate [item]
  = Ok ([adoption item top medium_reason],
        [MediumConfidence (u_mention item) (cand_id top) c]).
Proof.
  intros Hconf Heq Hc.
  assert (Hc' : confidence_of item = c) by (unfold confidence_of; now rewrite Hconf).
  unfold disambiguate, disambiguate_loop, disambiguate_step, top_candidate_id.
  rewrite Hc, Hc'.
  assert (Hhi : Qgtb c 0.8 = false).
  { apply Qgtb_false_iff. rewrite Heq. apply Qle_refl. }
  assert (Hmid : Qgtb c 0.5 = true).
  { apply Qgtb_true_iff. rewrite Heq. reflexivity. }
  rewrite Hhi, Hmid. cbn [bind app].
  unfold adoption. now rewrite Hc'.
Qed.

Lemma disambiguate_at_upper_threshold_witness :
  disambiguate [boundary_mention]
  = Ok ([adoption boundary_mention yefan_candidate medium_reason],
        [MediumConfidence "那位先生" "yefan" 0.8%Q]).
Proof.
  apply (disambiguate_at_upper_threshold boundary_mention yefan_candidate [] 0.8%Q).
  - reflexivity.
  - reflexivity.
  - reflexivity.
Defined.

(** C2 as stated fails: at confidence exactly 0.8 a warning is emitted. *)
Lemma upper_threshold_emits_warning :
  u_confidence boundary_mention = Some 0.8%Q
  /\ u_candidates boundary_mention = Some [yefan_candidate]
  /\ ~ (exists adopted, disambiguate [boundary_mention] = Ok (adopted, [])).
Proof.
  split; [reflexivity|]. split; [reflexivity|].
  intros [adopted H]. vm_compute in H. discriminate H.
Qed.

(** With an empty candidate list, the two adopting tiers raise at
    [item['candidates'][0]]. *)
Lemma disambiguate_step_empty_candidates_raises acc item :
  u_candidates item = Some [] ->
  (0.5 < confidence_of item)%Q ->
  disambiguate_step acc item = Err IndexError.
Proof.
  intros Hc Hgt. destruct acc as [adopted warnings].
  unfold disambiguate_step, top_candidate_id. rewrite Hc.
  destruct (Qgtb (confidence_of item) 0.8); [reflexivity|].
  apply Qgtb_true_iff in Hgt. now rewrite Hgt.
Qed.

Lemma high_confidence_without_candidates_raises :
  disambiguate [high_mention_no_candidate] = Err IndexError.
Proof. reflexivity. Qed.

Lemma disambiguate_step_low acc item :
  (confidence_of item <= 0.5)%Q ->
  disambiguate_step acc item = Ok (fst acc, snd acc ++ [manual_review item]).
Proof.
  intros Hle. destruct acc as [adopted warnings].
  unfold disambiguate_step.
  assert (Hhi : Qgtb (confidence_of item) 0.8 = false).
  { apply Qgtb_false_iff. eapply Qle_trans; [exact Hle | discriminate]. }
  apply Qgtb_false_iff in Hle. now rewrite Hhi, Hle.
Qed.

(** C3 (as the code has it).  A mention with an empty (or absent) candidate
    list and confidence at most 0.5 does not fail: nothing is adopted and one
    manual-review warning is emitted, whatever the candidate list is. *)
Theorem disambiguate_empty_candidates_low item :
  u_candidates item = Some [] \/ u_candidates item = None ->
  (confidence_of item <= 0.5)%Q ->
  disambiguate [item] = Ok ([], [manual_review item])
  /\ ~ raises (disambiguate [item]).
Proof.
  intros _ Hle.
  assert (H : disambiguate [item] = Ok ([], [manual_review item])).
  { unfold disambiguate, disambiguate_loop.
    now rewrite (disambiguate_step_low _ _ Hle). }
  split; [exact H|]. intros [e He]. congruence.
Qed.

Lemma disambiguate_empty_candidates_low_witness :
  disambiguate [low_mention_no_candidate]
  = Ok ([], [manual_review low_mention_no_candidate])
  /\ ~ raises (disambiguate [low_mention_no_candidate]).
Proof.
  apply (disambiguate_empty_candidates_low low_mention_no_candidate).
  - left. reflexivity.
  - discriminate.
Defined.

(** C3 as stated fails: an empty candidate list with a low confidence is
    processed without any error. *)
Lemma empty_candidates_need_not_fail :
  u_candidates low_mention_no_candidate = Some []
  /\ disambiguate [low_mention_no_candidate]
     = Ok ([], [NeedsManualReview "那位先生"])
  /\ ~ raises (disambiguate [low_mention_no_candidate]).
Proof.
  split; [reflexivity|]. split; [reflexivity|].
  intros [e He]. vm_compute in He. discriminate He.
Qed.

Lemma disambiguate_loop_unscored uncertain :
  Forall (fun item => u_confidence item = None) uncertain ->
  forall acc,
    disambiguate_loop uncertain acc
    = Ok (fst acc, snd acc ++ map manual_review uncertain).
Proof.
  induction 1 as [|item l Hnone _ IH]; intros acc.
  - simpl. rewrite app_nil_r. now destruct acc.
  - simpl. rewrite disambiguate_step_low.
    + cbn [bind]. rewrite IH. cbn [fst snd]. now rewrite <- app_assoc.
    + unfold confidence_of. rewrite Hnone. discriminate.
Qed.

(** C10.  A mention without a ['confidence'] key is treated as having
    confidence 0: nothing is adopted for it and one manual-review warning is
    emitted.  No condition on the candidate list is needed, so the mention is
    processed without error also when the list is empty or the key absent. *)
Theorem disambiguate_missing_confidence (uncertain : list uncertain_item) :
  Forall (fun item => u_confidence item = None) uncertain ->
  Forall (fun item => confidence_of item = 0%Q) uncertain
  /\ disambiguate uncertain = Ok ([], map manual_review uncertain)
  /\ ~ raises (disambiguate uncertain).
Proof.
  intros Hall.
  assert (H : disambiguate uncertain = Ok ([], map manual_review uncertain)).
  { unfold disambiguate. now rewrite (disambiguate_loop_unscored _ Hall). }
  split; [|split].
  - eapply Forall_impl; [|exact Hall].
    intros item Hnone. unfold confidence_of. now rewrite Hnone.
  - exact H.
  - intros [e He]. congruence.
Qed.

Lemma disambiguate_missing_confidence_witness :
  disambiguate [unscored_mention_no_candidate; unscored_mention_no_key]
  = Ok ([], [NeedsManualReview "那位先生"; NeedsManualReview "那位先生"]).
Proof.
  apply (disambiguate_missing_confidence
           [unscored_mention_no_candidate; unscored_mention_no_key]).
  repeat constructor.
Defined.

(** ** Extraction *)

(** C7 (as the code has it).  On the empty chapter text the extraction does
    not fail and proposes no appeared entity, no new entity and no state
    change; it still proposes its one fixed relationship edge and its one
    fixed uncertain mention, which it emits for every text. *)
Theorem extract_entities_empty_text existing_entities alias_to_entities :
  extract_entities EmptyString existing_entities alias_to_entities
  = {| entities_appeared := [];
       entities_new := [];
       state_changes := [];
       relationships_new := [landlord_tenant];
       uncertain := [that_gentleman] |}.
Proof. reflexivity. Qed.

(** C7 as stated fails: two of the five proposal sets are not empty. *)
Lemma empty_text_still_proposes :
  relationships_new (extract_entities EmptyString [] []) <> []
  /\ uncertain (extract_entities EmptyString [] []) <> [].
Proof. split; discriminate. Qed.

(** C8 (as the code has it).  On a text containing the six phrases of the
    scenario the extraction yields exactly the two appeared entities yefan and
    guwanqing, the new entities jingya_community and 602_room, exactly two
    state changes targeting yefan, and exactly the one edge from yefan to
    guwanqing of type landlord-tenant.  A third new entity (middle_woman) and a
    third state change (for guwanqing) are added exactly when the text also
    triggers those recognisers; otherwise there are exactly two of each. *)
Theorem extract_entities_scenario text existing_entities alias_to_entities :
  scenario_text text ->
  let ex := extract_entities text existing_entities alias_to_entities in
  entities_appeared ex = [yefan_appeared; guwanqing_appeared]
  /\ entities_new ex
     = when (mentions_middle_woman text) [middle_woman_new]
       ++ [jingya_community_new; room_602_new]
  /\ state_changes ex
     = [yefan_location_change; yefan_status_change]
       ++ when (mentions_letting text) [guwanqing_location_change]
  /\ filter (targets "yefan") (state_changes ex)
     = [yefan_location_change; yefan_status_change]
  /\ relationships_new ex = [landlord_tenant]
  /\ (mentions_middle_woman text = false -> length (entities_new ex) = 2%nat)
  /\ (mentions_letting text = false ->
      length (state_changes ex) = 2%nat
      /\ forallb (targets "yefan") (state_changes ex) = true).
Proof.
  intros (H1 & H2 & H3 & H4 & H5 & H6).
  unfold extract_entities, mentions_middle_woman, mentions_letting.
  cbn [entities_appeared entities_new state_changes relationships_new].
  rewrite H1, H2, H3, H4, H5, H6. cbn [when andb orb app].
  repeat split.
  - now destruct (str_in "租出去" text || str_in "还房贷" text).
  - now intros ->.
  - now rewrite H.
  - now rewrite H.
Qed.

Lemma extract_entities_scenario_witness :
  scenario_text plain_scenario_text
  /\ length (entities_new (extract_entities plain_scenario_text [] [])) = 2%nat
  /\ length (state_changes (extract_entities plain_scenario_text [] [])) = 2%nat.
Proof.
  assert (H : scenario_text plain_scenario_text) by (repeat split).
  split; [exact H|].
  pose proof (extract_entities_scenario plain_scenario_text [] [] H) as P.
  cbv zeta in P.
  destruct P as (_ & _ & _ & _ & _ & Hnew & Hchg).
  split.
  - apply Hnew. reflexivity.
  - apply Hchg. reflexivity.
Defined.

(** C8 as stated fails: a text with the six phrases that also triggers the
    other two recognisers yields three new entities and three state changes,
    one of them for guwanqing. *)
Lemma scenario_text_with_more_triggers :
  scenario_text busy_scenario_text
  /\ length (entities_new (extract_entities busy_scenario_text [] [])) = 3%nat
  /\ length (state_changes (extract_entities busy_scenario_text [] [])) = 3%nat
  /\ forallb (targets "yefan")
       (state_changes (extract_entities busy_scenario_text [] [])) = false.
Proof. repeat split. Qed.

(** ** The entity registry *)

Lemma get_in {V : Type} k (v : V) (d : Dict.t V) :
  Dict.get k d = Some v -> In (k, v) d.
Proof.
  induction d as [|[k' v'] rest IH]; simpl; [discriminate|].
  destruct (String.eqb k k') eqn:E.
  - apply String.eqb_eq in E. intros [= ->]. subst. now left.
  - intros H. right. now apply IH.
Qed.

Lemma lookup_wf r entity_type entity_id ent :
  registry_wf r -> lookup entity_type entity_id r = Some ent ->
  e_id ent = entity_id.
Proof.
  intros [_ Hall] H. unfold lookup in H.
  destruct (Dict.get entity_type r) as [entities|] eqn:Hb; [|discriminate].
  apply get_in in Hb. apply get_in in H.
  rewrite Forall_forall in Hall. destruct (Hall _ Hb) as [_ Hids].
  rewrite Forall_forall in Hids. exact (Hids _ H).
Qed.

(** *** Registration *)

Lemma lookup_register_entity new_entity r entity_type entity_id :
  lookup entity_type entity_id (register_entity new_entity r)
  = if registers entity_type entity_id new_entity
    then Some (fresh_entity new_entity)
    else lookup entity_type entity_id r.
Proof.
  unfold lookup, register_entity, registers.
  destruct (String.eqb entity_type (ne_type new_entity)) eqn:Et; cbn [andb].
  - apply String.eqb_eq in Et. subst entity_type.
    rewrite DictFacts.get_modify_eq, DictFacts.get_setdefault_eq. cbn [option_map].
    destruct (String.eqb entity_id (ne_suggested_id new_entity)) eqn:Ei.
    + apply String.eqb_eq in Ei. subst. apply DictFacts.get_set_eq.
    + apply String.eqb_neq in Ei.
      rewrite DictFacts.get_set_ne by congruence.
      unfold Dict.get_default.
      now destruct (Dict.get (ne_type new_entity) r).
  - apply String.eqb_neq in Et.
    rewrite DictFacts.get_modify_ne by congruence.
    now rewrite DictFacts.get_setdefault_ne by congruence.
Qed.

Lemma in_setdefault {V : Type} k (v : V) d kv :
  In kv (Dict.setdefault k v d) -> kv = (k, v) \/ In kv d.
Proof.
  unfold Dict.setdefault. destruct (Dict.mem k d); [tauto|].
  apply DictFacts.in_set.
Qed.

Lemma bucket_wf_set new_entity entities :
  bucket_wf entities ->
  bucket_wf (Dict.set (ne_suggested_id new_entity) (fresh_entity new_entity) entities).
Proof.
  intros [Hnd Hids]. split.
  - now apply DictFacts.nodup_keys_set.
  - rewrite Forall_forall in *. intros kv Hin.
    apply DictFacts.in_set in Hin. destruct Hin as [->|Hin]; [reflexivity|].
    now apply Hids.
Qed.

Lemma register_entity_wf new_entity r :
  registry_wf r -> registry_wf (register_entity new_entity r).
Proof.
  intros [Hnd Hall]. unfold register_entity. split.
  - rewrite DictFacts.keys_modify. now apply DictFacts.nodup_keys_setdefault.
  - rewrite Forall_forall in *. intros tb Hin.
    apply DictFacts.in_modify in Hin.
    assert (Hsd : forall tb', In tb' (Dict.setdefault (ne_type new_entity) [] r) ->
                              bucket_wf (snd tb')).
    { intros tb' Hin'. apply in_setdefault in Hin'.
      destruct Hin' as [->|Hin']; [|now apply Hall].
      split; constructor. }
    destruct Hin as [Hin|[entities [Hin [_ Heq]]]].
    + now apply Hsd.
    + rewrite Heq. apply bucket_wf_set. exact (Hsd _ Hin).
Qed.

(** *** State changes *)

Lemma change_entity_id change ent : e_id (change_entity change ent) = e_id ent.
Proof. reflexivity. Qed.

Lemma change_entity_history change ent :
  e_history (change_entity change ent)
  = e_history ent ++ [history_record_of change ent].
Proof. reflexivity. Qed.

Lemma change_entity_last_chapter change ent :
  Dict.get "last_chapter" (e_current (change_entity change ent)) = Some (VInt 1).
Proof. apply DictFacts.get_set_eq. Qed.

Lemma change_entity_field change ent :
  sc_field change <> "last_chapter" ->
  Dict.get (sc_field change) (e_current (change_entity change ent))
  = Some (sc_new change).
Proof.
  intros Hne. cbn [change_entity e_current].
  rewrite DictFacts.get_set_ne by congruence. apply DictFacts.get_set_eq.
Qed.

Lemma keys_apply_change change r :
  Dict.keys (fst (apply_change change r)) = Dict.keys r.
Proof.
  unfold Dict.keys. induction r as [|[ty entities] rest IH]; simpl; [reflexivity|].
  destruct (Dict.mem (sc_entity_id change) entities); simpl; [reflexivity|].
  destruct (apply_change change rest) as [rest' found]. simpl in *. now rewrite IH.
Qed.

Lemma shape_apply_change change r :
  shape (fst (apply_change change r)) = shape r.
Proof.
  unfold shape. induction r as [|[ty entities] rest IH]; simpl; [reflexivity|].
  destruct (Dict.mem (sc_entity_id change) entities); simpl.
  - now rewrite DictFacts.keys_modify.
  - destruct (apply_change change rest) as [rest' found]. simpl in *. now rewrite IH.
Qed.

Lemma bucket_wf_modify change entities :
  bucket_wf entities ->
  bucket_wf (Dict.modify (sc_entity_id change) (change_entity change) entities).
Proof.
  intros [Hnd Hids]. split.
  - now rewrite DictFacts.keys_modify.
  - rewrite Forall_forall in *. intros kv Hin.
    apply DictFacts.in_modify in Hin.
    destruct Hin as [Hin|[ent [Hin [_ Heq]]]]; [now apply Hids|].
    rewrite Heq, change_entity_id. exact (Hids _ Hin).
Qed.

Lemma apply_change_wf change r :
  registry_wf r -> registry_wf (fst (apply_change change r)).
Proof.
  intros [Hnd Hall]. split; [now rewrite keys_apply_change|].
  clear Hnd. induction r as [|[ty entities] rest IH]; simpl; [constructor|].
  inversion Hall as [|? ? Hb Hrest]; subst.
  destruct (Dict.mem (sc_entity_id change) entities); simpl.
  - constructor; [|exact Hrest]. now apply bucket_wf_modify.
  - specialize (IH Hrest).
    destruct (apply_change change rest) as [rest' found]. simpl in *.
    constructor; assumption.
Qed.

(** The scan hits the first bucket holding the id and rewrites the entity
    found there; the flag reports the hit. *)
Lemma apply_change_found change r entity_type ent :
  find_entity (sc_entity_id change) r = Some (entity_type, ent) ->
  find_entity (sc_entity_id change) (fst (apply_change change r))
  = Some (entity_type, change_entity change ent)
  /\ snd (apply_change change r) = true.
Proof.
  induction r as [|[ty entities] rest IH]; simpl; [discriminate|].
  unfold Dict.mem.
  destruct (Dict.get (sc_entity_id change) entities) as [e|] eqn:Hg.
  - intros [= -> ->]. simpl.
    rewrite DictFacts.get_modify_eq, Hg. now split.
  - intros H. specialize (IH H).
    destruct (apply_change change rest) as [rest' found]. simpl in *.
    now rewrite Hg.
Qed.

(** A change whose id is in no bucket leaves the registry as it is; the flag
    stays false. *)
Lemma apply_change_not_found change r :
  find_entity (sc_entity_id change) r = None ->
  apply_change change r = (r, false).
Proof.
  induction r as [|[ty entities] rest IH]; simpl; [reflexivity|].
  unfold Dict.mem.
  destruct (Dict.get (sc_entity_id change) entities) as [e|] eqn:Hg; [discriminate|].
  intros H. now rewrite (IH H).
Qed.

(** Every binding survives a state change, either untouched or rewritten by
    that change. *)
Lemma lookup_apply_change change r entity_type entity_id ent :
  lookup entity_type entity_id r = Some ent ->
  exists ent',
    lookup entity_type entity_id (fst (apply_change change r)) = Some ent'
    /\ (ent' = ent
        \/ (entity_id = sc_entity_id change /\ ent' = change_entity change ent)).
Proof.
  unfold lookup.
  induction r as [|[ty entities] rest IH]; simpl; [discriminate|].
  destruct (Dict.mem (sc_entity_id change) entities) eqn:Hm; simpl.
  - destruct (String.eqb entity_type ty); [|intros H; exists ent; auto].
    destruct (String.eqb_spec (sc_entity_id change) entity_id) as [->|Hne].
    + rewrite DictFacts.get_modify_eq. intros ->. simpl. eauto.
    + rewrite DictFacts.get_modify_ne by exact Hne. intros H. exists ent. auto.
  - destruct (apply_change change rest) as [rest' found]. simpl in *.
    destruct (String.eqb entity_type ty); [intros H; exists ent; auto|].
    exact IH.
Qed.

Lemma find_entity_key entity_id r entity_type ent :
  find_entity entity_id r = Some (entity_type, ent) ->
  In entity_type (Dict.keys r).
Proof.
  induction r as [|[ty entities] rest IH]; simpl; [discriminate|].
  destruct (Dict.get entity_id entities).
  - intros [= -> _]. now left.
  - intros H. right. now apply IH.
Qed.

(** With unique bucket names, a state change that hits rewrites exactly the
    binding it hits. *)
Lemma lookup_apply_change_exact change r entity_type ent ty' id' :
  NoDup (Dict.keys r) ->
  find_entity (sc_entity_id change) r = Some (entity_type, ent) ->
  lookup ty' id' (fst (apply_change change r))
  = if String.eqb ty' entity_type && String.eqb id' (sc_entity_id change)
    then Some (change_entity change ent)
    else lookup ty' id' r.
Proof.
  unfold lookup.
  induction r as [|[ty entities] rest IH]; simpl; [discriminate|].
  intros Hnd. inversion Hnd as [|? ? Hnotin Hnd']; subst.
  unfold Dict.mem.
  destruct (Dict.get (sc_entity_id change) entities) as [e|] eqn:Hg.
  - intros [= -> ->]. simpl.
    destruct (String.eqb ty' entity_type); cbn [andb]; [|reflexivity].
    destruct (String.eqb id' (sc_entity_id change)) eqn:Ei.
    + apply String.eqb_eq in Ei. rewrite Ei.
      now rewrite DictFacts.get_modify_eq, Hg.
    + apply String.eqb_neq in Ei.
      apply DictFacts.get_modify_ne. congruence.
  - intros Hf. specialize (IH Hnd' Hf).
    pose proof (find_entity_key _ _ _ _ Hf) as Hin.
    destruct (apply_change change rest) as [rest' found]. simpl in *.
    destruct (String.eqb ty' ty) eqn:Et; [|exact IH].
    apply String.eqb_eq in Et. rewrite Et.
    destruct (String.eqb ty entity_type) eqn:Et'; [|reflexivity].
    apply String.eqb_eq in Et'. rewrite Et' in Hnotin. contradiction.
Qed.

Lemma apply_changes_wf state_changes r :
  registry_wf r -> registry_wf (apply_changes state_changes r).
Proof.
  unfold apply_changes. revert r.
  induction state_changes as [|c cs IH]; intros r Hwf; simpl; [exact Hwf|].
  apply IH. now apply apply_change_wf.
Qed.

Lemma shape_apply_changes state_changes r :
  shape (apply_changes state_changes r) = shape r.
Proof.
  unfold apply_changes. revert r.
  induction state_changes as [|c cs IH]; intros r; simpl; [reflexivity|].
  now rewrite IH, shape_apply_change.
Qed.

(** The state-change loop only ever extends a history. *)
Lemma lookup_apply_changes state_changes r entity_type entity_id ent :
  lookup entity_type entity_id r = Some ent ->
  exists ent' suffix,
    lookup entity_type entity_id (apply_changes state_changes r) = Some ent'
    /\ e_history ent' = e_history ent ++ suffix
    /\ e_id ent' = e_id ent.
Proof.
  unfold apply_changes. revert r ent.
  induction state_changes as [|c cs IH]; intros r ent H; simpl.
  - exists ent, []. now rewrite app_nil_r.
  - destruct (lookup_apply_change c r _ _ _ H) as [e1 [H1 Hcase]].
    destruct (IH _ _ H1) as [e2 [suffix [H2 [Hh Hid]]]].
    destruct Hcase as [->|[_ ->]].
    + exists e2, suffix. auto.
    + exists e2, (history_record_of c ent :: suffix).
      split; [exact H2|]. split; [|exact Hid].
      rewrite Hh, change_entity_history, <- app_assoc. reflexivity.
Qed.

Lemma register_fold_wf entities_new r :
  registry_wf r ->
  registry_wf (fold_left (fun r n => register_entity n r) entities_new r).
Proof.
  revert r. induction entities_new as [|n ns IH]; intros r Hwf; simpl; [exact Hwf|].
  apply IH. now apply register_entity_wf.
Qed.

Lemma lookup_register_fold_present entities_new r entity_type entity_id ent :
  lookup entity_type entity_id r = Some ent ->
  exists ent',
    lookup entity_type entity_id
      (fold_left (fun r n => register_entity n r) entities_new r) = Some ent'.
Proof.
  revert r ent. induction entities_new as [|n ns IH]; intros r ent H; simpl.
  - eauto.
  - destruct (registers entity_type entity_id n) eqn:E.
    + apply (IH _ (fresh_entity n)). now rewrite lookup_register_entity, E.
    + apply (IH _ ent). now rewrite lookup_register_entity, E.
Qed.

Lemma lookup_register_fold_other entities_new r entity_type entity_id :
  forallb (fun n => negb (registers entity_type entity_id n)) entities_new = true ->
  lookup entity_type entity_id
    (fold_left (fun r n => register_entity n r) entities_new r)
  = lookup entity_type entity_id r.
Proof.
  revert r. induction entities_new as [|n ns IH]; intros r H; simpl in *.
  - reflexivity.
  - apply andb_true_iff in H. destruct H as [Hn Hns].
    rewrite IH by exact Hns. rewrite lookup_register_entity.
    apply negb_true_iff in Hn. now rewrite Hn.
Qed.

Lemma fst_register_all entities_new acc :
  fst (register_all entities_new acc)
  = fold_left (fun r n => register_entity n r) entities_new (fst acc).
Proof.
  unfold register_all. revert acc.
  induction entities_new as [|n ns IH]; intros acc; simpl; [reflexivity|].
  now rewrite IH.
Qed.

(** The registry that [update_state] returns. *)
Lemma update_state_registry now st appeared entities_new state_changes rels st' :
  update_state now st appeared entities_new state_changes rels = Ok st' ->
  st_entities_v3 st'
  = merge_registry entities_new state_changes (st_entities_v3 st).
Proof.
  unfold update_state, merge_registry.
  pose proof (fst_register_all entities_new (st_entities_v3 st, st_alias_index st)) as Hf.
  destruct (register_all entities_new (st_entities_v3 st, st_alias_index st))
    as [entities_v3 alias_index].
  simpl in Hf. subst entities_v3.
  destruct (st_metadata st); [|discriminate].
  now intros [= <-].
Qed.

(** [update_state] returns normally exactly when the document has its
    ['metadata'] key, and the returned document has it too. *)
Lemma update_state_total now st appeared entities_new state_changes rels :
  st_metadata st <> None ->
  exists st',
    update_state now st appeared entities_new state_changes rels = Ok st'
    /\ st_metadata st' <> None.
Proof.
  intros Hm. unfold update_state.
  destruct (register_all entities_new (st_entities_v3 st, st_alias_index st)).
  destruct (st_metadata st); [|congruence].
  eexists. split; [reflexivity|]. discriminate.
Qed.

Lemma merge_all_total ms st :
  st_metadata st <> None -> exists st', merge_all ms st = Ok st'.
Proof.
  revert st. induction ms as [|m ms IH]; intros st Hm; simpl; [eauto|].
  unfold merge.
  destruct (update_state_total (mi_now m) st (mi_entities_appeared m)
              (mi_entities_new m) (mi_state_changes m) (mi_relationships_new m) Hm)
    as [st1 [H1 Hm1]].
  rewrite H1. cbn [bind]. now apply IH.
Qed.

Lemma merge_registry_wf entities_new state_changes r :
  registry_wf r -> registry_wf (merge_registry entities_new state_changes r).
Proof.
  intros Hwf. unfold merge_registry.
  now apply apply_changes_wf, register_fold_wf.
Qed.

Lemma merge_registry_present entities_new state_changes r entity_type entity_id ent :
  lookup entity_type entity_id r = Some ent ->
  exists ent',
    lookup entity_type entity_id (merge_registry entities_new state_changes r)
    = Some ent'.
Proof.
  intros H. unfold merge_registry.
  destruct (lookup_register_fold_present entities_new _ _ _ _ H) as [e1 H1].
  destruct (lookup_apply_changes state_changes _ _ _ _ H1) as [e2 [_ [H2 _]]].
  eauto.
Qed.

(** C4 (as the code has it).  After any sequence of merges on a well-formed
    registry, every entity id is still unique within its type bucket and every
    entity is stored under its own id; an id that was bound stays bound, to a
    record carrying that same id.  (Registration does not reject an id that is
    already present, so nothing more is promised about that record.) *)
Theorem merge_all_keeps_ids ms st st' :
  registry_wf (st_entities_v3 st) ->
  merge_all ms st = Ok st' ->
  registry_wf (st_entities_v3 st')
  /\ forall entity_type entity_id ent,
       lookup entity_type entity_id (st_entities_v3 st) = Some ent ->
       exists ent',
         lookup entity_type entity_id (st_entities_v3 st') = Some ent'
         /\ e_id ent' = entity_id /\ e_id ent = entity_id.
Proof.
  revert st. induction ms as [|m ms IH]; intros st Hwf; simpl.
  - intros [= <-]. split; [exact Hwf|].
    intros ty id ent H. exists ent.
    pose proof (lookup_wf _ _ _ _ Hwf H). auto.
  - unfold merge.
    destruct (update_state (mi_now m) st (mi_entities_appeared m)
                (mi_entities_new m) (mi_state_changes m) (mi_relationships_new m))
      as [st1|e] eqn:H1; cbn [bind]; [|discriminate].
    intros Hrest.
    apply update_state_registry in H1.
    assert (Hwf1 : registry_wf (st_entities_v3 st1)).
    { rewrite H1. now apply merge_registry_wf. }
    destruct (IH st1 Hwf1 Hrest) as [Hwf' Hkeep].
    split; [exact Hwf'|].
    intros ty id ent H.
    destruct (merge_registry_present (mi_entities_new m) (mi_state_changes m)
                _ _ _ _ H) as [e1 He1].
    rewrite <- H1 in He1.
    destruct (Hkeep _ _ _ He1) as [e2 [He2 [Hid _]]].
    exists e2. split; [exact He2|]. split; [exact Hid|].
    exact (lookup_wf _ _ _ _ Hwf H).
Qed.

Lemma merge_all_keeps_ids_witness :
  exists st',
    merge_all [sample_merge; sample_merge] stored_state = Ok st'
    /\ registry_wf (st_entities_v3 st')
    /\ exists ent', lookup "角色" "yefan" (st_entities_v3 st') = Some ent'
                    /\ e_id ent' = "yefan".
Proof.
  assert (Hwf : registry_wf (st_entities_v3 stored_state)).
  { split.
    - repeat constructor. simpl. tauto.
    - repeat constructor. simpl. tauto. }
  eexists. split; [vm_compute; reflexivity|].
  match goal with
  | |- registry_wf (st_entities_v3 ?s) /\ _ =>
      destruct (merge_all_keeps_ids [sample_merge; sample_merge] stored_state s Hwf
                  eq_refl) as [Hwf' Hkeep]
  end.
  split; [exact Hwf'|].
  destruct (Hkeep "角色" "yefan" yefan_entity eq_refl) as [e' [He' [Hid _]]].
  exists e'. split; [exact He' | exact Hid].
Defined.

(** C4 as stated fails: registering an id that is already in its bucket is not
    rejected; the stored record is replaced by a freshly built one. *)
Lemma registration_replaces_existing_record :
  lookup "角色" "yefan" (st_entities_v3 stored_state) = Some yefan_entity
  /\ exists st',
       update_state sample_clock stored_state [] [yefan_again] [] [] = Ok st'
       /\ lookup "角色" "yefan" (st_entities_v3 st') = Some (fresh_entity yefan_again)
       /\ fresh_entity yefan_again <> yefan_entity.
Proof.
  split; [reflexivity|]. eexists. split; [reflexivity|].
  split; [reflexivity|]. discriminate.
Qed.

(** A merge only extends the history of an entity it does not register. *)
Lemma merge_registry_history entities_new state_changes r
    entity_type entity_id ent :
  lookup entity_type entity_id r = Some ent ->
  forallb (fun n => negb (registers entity_type entity_id n)) entities_new = true ->
  exists ent' suffix,
    lookup entity_type entity_id (merge_registry entities_new state_changes r)
    = Some ent'
    /\ e_history ent' = e_history ent ++ suffix.
Proof.
  intros Hlook Hother. unfold merge_registry.
  rewrite <- (lookup_register_fold_other entities_new _ _ _ Hother) in Hlook.
  destruct (lookup_apply_changes state_changes _ _ _ _ Hlook)
    as [ent' [suffix [H1 [H2 _]]]].
  exists ent', suffix. auto.
Qed.

(** C5 (as the code has it).  A state change that finds its entity appends
    exactly one history record (chapter 1, field, old, new, reason) to that
    entity and touches no other binding; [old] is the value the field had in
    the entity's current state before (the empty string when it had none), and
    the field then holds the new value (the field last_chapter is thereafter
    reset to 1).  Across a whole merge, the history of every entity that the
    merge does not register anew is only extended: its previous records remain,
    in order, at the front. *)
Theorem history_is_appended :
  (forall change r entity_type ent,
      NoDup (Dict.keys r) ->
      find_entity (sc_entity_id change) r = Some (entity_type, ent) ->
      let ent' := change_entity change ent in
      (forall ty' id',
          lookup ty' id' (fst (apply_change change r))
          = if String.eqb ty' entity_type && String.eqb id' (sc_entity_id change)
            then Some ent'
            else lookup ty' id' r)
      /\ e_history ent'
         = e_history ent
           ++ [ {| h_chapter := 1;
                   h_field := sc_field change;
                   h_old := Dict.get_default (sc_field change) (VStr EmptyString)
                              (e_current ent);
                   h_new := sc_new change;
                   h_reason := match sc_reason change with
                               | Some reason => reason
                               | None => EmptyString
                               end |} ]
      /\ (sc_field change <> "last_chapter" ->
          Dict.get (sc_field change) (e_current ent') = Some (sc_new change))
      /\ Dict.get "last_chapter" (e_current ent') = Some (VInt 1))
  /\ (forall now st appeared entities_new state_changes rels st'
             entity_type entity_id ent,
         update_state now st appeared entities_new state_changes rels = Ok st' ->
         lookup entity_type entity_id (st_entities_v3 st) = Some ent ->
         forallb (fun n => negb (registers entity_type entity_id n)) entities_new
         = true ->
         exists ent' suffix,
           lookup entity_type entity_id (st_entities_v3 st') = Some ent'
           /\ e_history ent' = e_history ent ++ suffix).
Proof.
  split.
  - intros change r entity_type ent Hnd Hfind ent'. split; [|split; [|split]].
    + intros ty' id'. now apply lookup_apply_change_exact.
    + reflexivity.
    + now apply change_entity_field.
    + apply change_entity_last_chapter.
  - intros now st appeared entities_new state_changes rels st' ty id ent
           Hupd Hlook Hother.
    apply update_state_registry in Hupd. rewrite Hupd.
    now apply merge_registry_history.
Qed.

Lemma history_is_appended_witness :
  (NoDup (Dict.keys (st_entities_v3 stored_state))
   /\ find_entity "yefan" (st_entities_v3 stored_state)
      = Some ("角色", yefan_entity)
   /\ lookup "角色" "yefan"
        (fst (apply_change yefan_location_change (st_entities_v3 stored_state)))
      = Some (change_entity yefan_location_change yefan_entity)
   /\ e_history (change_entity yefan_location_change yefan_entity)
      = [yefan_first_record;
         {| h_chapter := 1; h_field := "location"; h_old := VStr "无处可去";
            h_new := VStr "静雅小区3号楼602室"; h_reason := "租房成功" |}])
  /\ exists st' ent',
       update_state sample_clock stored_state [yefan_appeared]
         [jingya_community_new] [yefan_location_change; yefan_status_change] []
       = Ok st'
       /\ lookup "角色" "yefan" (st_entities_v3 st') = Some ent'
       /\ exists suffix, e_history ent' = [yefan_first_record] ++ suffix.
Proof.
  split.
  - assert (Hnd : NoDup (Dict.keys (st_entities_v3 stored_state)))
      by (repeat constructor; simpl; tauto).
    destruct (proj1 history_is_appended yefan_location_change
                (st_entities_v3 stored_state) "角色" yefan_entity Hnd eq_refl)
      as (Hlook & Hhist & _ & _).
    split; [exact Hnd|]. split; [reflexivity|].
    split; [exact (Hlook "角色" "yefan") | exact Hhist].
  - eexists.
    assert (Hrun : update_state sample_clock stored_state [yefan_appeared]
                     [jingya_community_new]
                     [yefan_location_change; yefan_status_change] []
                   = Ok _) by (vm_compute; reflexivity).
    destruct (proj2 history_is_appended sample_clock stored_state [yefan_appeared]
                [jingya_community_new] [yefan_location_change; yefan_status_change]
                [] _ "角色" "yefan" yefan_entity Hrun eq_refl eq_refl)
      as [ent' [suffix [H1 H2]]].
    exists ent'. split; [exact Hrun|]. split; [exact H1|].
    exists suffix. exact H2.
Defined.

(** C5 as stated fails: a merge that registers an id already present replaces
    the record, and with it the history that the entity had. *)
Lemma registration_erases_history :
  exists st' ent',
    update_state sample_clock stored_state [] [yefan_again] [] [] = Ok st'
    /\ lookup "角色" "yefan" (st_entities_v3 stored_state) = Some yefan_entity
    /\ e_history yefan_entity = [yefan_first_record]
    /\ lookup "角色" "yefan" (st_entities_v3 st') = Some ent'
    /\ e_history ent' = [].
Proof.
  eexists. eexists. split; [reflexivity|]. repeat split.
Qed.

(** C6.  The code at an unknown entity id: the scan finds no bucket holding
    "ghost", the flag [found] ends false and is never read, and [update_state]
    returns normally with the registry exactly as it was.  No error is raised
    for the miss. *)
Theorem unknown_entity_id_is_dropped :
  find_entity (sc_entity_id ghost_change) (st_entities_v3 stored_state) = None
  /\ apply_change ghost_change (st_entities_v3 stored_state)
     = (st_entities_v3 stored_state, false)
  /\ exists st',
       update_state sample_clock stored_state [] [] [ghost_change] [] = Ok st'
       /\ st_entities_v3 st' = st_entities_v3 stored_state
       /\ ~ raises (update_state sample_clock stored_state [] [] [ghost_change] []).
Proof.
  split; [reflexivity|]. split.
  - now apply apply_change_not_found.
  - eexists. split; [reflexivity|]. split; [reflexivity|].
    intros [e He]. discriminate He.
Qed.

(** In general: state changes whose ids are in no bucket never make
    [update_state] fail and leave the registry unchanged. *)
Lemma update_state_unknown_ids now st appeared state_changes rels :
  st_metadata st <> None ->
  Forall (fun change => find_entity (sc_entity_id change) (st_entities_v3 st) = None)
         state_changes ->
  exists st',
    update_state now st appeared [] state_changes rels = Ok st'
    /\ st_entities_v3 st' = st_entities_v3 st.
Proof.
  intros Hm Hall.
  destruct (update_state_total now st appeared [] state_changes rels Hm)
    as [st' [Hupd _]].
  exists st'. split; [exact Hupd|].
  apply update_state_registry in Hupd. rewrite Hupd. clear Hupd.
  unfold merge_registry, apply_changes. simpl.
  induction Hall as [|c cs Hc _ IH]; simpl; [reflexivity|].
  rewrite (apply_change_not_found _ _ Hc). exact IH.
Qed.

(** ** Reprocessing *)

(** *** Assignments to a dictionary *)

Lemma set_set_same {V : Type} k (v v' : V) d :
  Dict.set k v (Dict.set k v' d) = Dict.set k v d.
Proof.
  induction d as [|[k0 v0] rest IH]; simpl.
  - now rewrite String.eqb_refl.
  - destruct (String.eqb k k0) eqn:E; simpl.
    + now rewrite String.eqb_refl.
    + now rewrite E, IH.
Qed.

Lemma mem_set {V : Type} k k' (v : V) d :
  Dict.mem k d = true -> Dict.mem k (Dict.set k' v d) = true.
Proof.
  unfold Dict.mem. destruct (String.eqb_spec k' k) as [->|Hne].
  - now rewrite DictFacts.get_set_eq.
  - now rewrite DictFacts.get_set_ne.
Qed.

Lemma mem_set_same {V : Type} k (v : V) d : Dict.mem k (Dict.set k v d) = true.
Proof. unfold Dict.mem. now rewrite DictFacts.get_set_eq. Qed.

(** An update in place commutes with any assignment to another key. *)
Lemma set_set_comm {V : Type} k k' (v v' : V) d :
  k <> k' -> Dict.mem k d = true ->
  Dict.set k v (Dict.set k' v' d) = Dict.set k' v' (Dict.set k v d).
Proof.
  intros Hne. unfold Dict.mem.
  induction d as [|[k0 v0] rest IH]; simpl; [discriminate|].
  destruct (String.eqb k k0) eqn:E; destruct (String.eqb k' k0) eqn:E'; simpl.
  - apply String.eqb_eq in E, E'. congruence.
  - intros _. rewrite E. apply String.eqb_eq in E. subst k0.
    now rewrite E'.
  - intros H. rewrite E'. apply String.eqb_eq in E'. subst k0.
    now rewrite E.
  - intros H. now rewrite E, E', IH.
Qed.

Lemma mem_assign_all kvs k d :
  Dict.mem k d = true -> Dict.mem k (assign_all kvs d) = true.
Proof.
  unfold assign_all. revert d.
  induction kvs as [|[k0 v0] rest IH]; intros d H; simpl; [exact H|].
  apply IH. now apply mem_set.
Qed.

(** An assignment that a later one of the list overrides has no effect. *)
Lemma assign_all_overridden kvs k v d :
  In k (map fst kvs) -> Dict.mem k d = true ->
  assign_all kvs (Dict.set k v d) = assign_all kvs d.
Proof.
  unfold assign_all. revert d.
  induction kvs as [|[k0 v0] rest IH]; intros d Hin Hm; simpl in *; [tauto|].
  destruct (String.eqb_spec k0 k) as [->|Hne].
  - now rewrite set_set_same.
  - destruct Hin as [Heq|Hin]; [congruence|].
    rewrite <- set_set_comm by (auto || congruence).
    apply IH; [exact Hin | now apply mem_set].
Qed.

(** An update in place of a key the list does not assign can be done first. *)
Lemma assign_all_untouched kvs k v d :
  ~ In k (map fst kvs) -> Dict.mem k d = true ->
  Dict.set k v (assign_all kvs d) = assign_all kvs (Dict.set k v d).
Proof.
  unfold assign_all. revert d.
  induction kvs as [|[k0 v0] rest IH]; intros d Hin Hm; simpl in *; [reflexivity|].
  rewrite IH by (try tauto; now apply mem_set).
  f_equal. apply set_set_comm; [|exact Hm].
  intros ->. tauto.
Qed.

(** Running a list of assignments a second time changes nothing. *)
Lemma assign_all_idempotent kvs d :
  assign_all kvs (assign_all kvs d) = assign_all kvs d.
Proof.
  revert d. induction kvs as [|[k v] rest IH]; intros d; [reflexivity|].
  change (assign_all ((k, v) :: rest) (assign_all ((k, v) :: rest) d))
    with (assign_all rest (Dict.set k v (assign_all rest (Dict.set k v d)))).
  change (assign_all ((k, v) :: rest) d) with (assign_all rest (Dict.set k v d)).
  assert (Hm : Dict.mem k (Dict.set k v d) = true) by apply mem_set_same.
  destruct (in_dec string_dec k (map fst rest)) as [Hin|Hnotin].
  - rewrite assign_all_overridden; [apply IH | exact Hin |].
    now apply mem_assign_all.
  - rewrite assign_all_untouched by assumption.
    rewrite set_set_same. apply IH.
Qed.

(** *** State changes on one entity *)

Lemma apply_to_fields state_changes ent :
  e_id (apply_to state_changes ent) = e_id ent
  /\ e_canonical_name (apply_to state_changes ent) = e_canonical_name ent
  /\ e_aliases (apply_to state_changes ent) = e_aliases ent
  /\ e_tier (apply_to state_changes ent) = e_tier ent
  /\ e_desc (apply_to state_changes ent) = e_desc ent
  /\ e_created_chapter (apply_to state_changes ent) = e_created_chapter ent
  /\ e_first_appearance (apply_to state_changes ent) = e_first_appearance ent
  /\ e_current (apply_to state_changes ent)
     = assign_all (assignments state_changes) (e_current ent).
Proof.
  unfold apply_to. revert ent.
  induction state_changes as [|c cs IH]; intros ent; simpl.
  - repeat split.
  - destruct (IH (change_entity c ent)) as (H1 & H2 & H3 & H4 & H5 & H6 & H7 & H8).
    rewrite H1, H2, H3, H4, H5, H6, H7, H8. repeat split.
Qed.

Lemma forget_history_apply_to_twice state_changes ent :
  forget_history (apply_to state_changes (apply_to state_changes ent))
  = forget_history (apply_to state_changes ent).
Proof.
  destruct (apply_to_fields state_changes (apply_to state_changes ent))
    as (H1 & H2 & H3 & H4 & H5 & H6 & H7 & H8).
  unfold forget_history. rewrite H1, H2, H3, H4, H5, H6, H7, H8.
  destruct (apply_to_fields state_changes ent) as (_ & _ & _ & _ & _ & _ & _ & G8).
  rewrite G8. now rewrite assign_all_idempotent.
Qed.

(** *** The registry under a second merge *)

Lemma mem_existsb {V : Type} k (d : Dict.t V) :
  Dict.mem k d = existsb (String.eqb k) (Dict.keys d).
Proof.
  unfold Dict.mem, Dict.keys.
  induction d as [|[k0 v0] rest IH]; simpl; [reflexivity|].
  destruct (String.eqb k k0); simpl; [reflexivity | exact IH].
Qed.

Lemma find_entity_owner entity_id r :
  owner_in entity_id (shape r) = option_map fst (find_entity entity_id r).
Proof.
  induction r as [|[ty entities] rest IH]; simpl; [reflexivity|].
  rewrite <- mem_existsb. unfold Dict.mem.
  destruct (Dict.get entity_id entities); simpl; [reflexivity | exact IH].
Qed.

Lemma find_entity_lookup entity_id r entity_type ent :
  NoDup (Dict.keys r) ->
  find_entity entity_id r = Some (entity_type, ent) ->
  lookup entity_type entity_id r = Some ent.
Proof.
  unfold lookup.
  induction r as [|[ty entities] rest IH]; simpl; [discriminate|].
  intros Hnd. inversion Hnd as [|? ? Hnotin Hnd']; subst.
  destruct (Dict.get entity_id entities) as [e|] eqn:Hg.
  - intros [= -> ->]. now rewrite String.eqb_refl.
  - intros Hf. pose proof (find_entity_key _ _ _ _ Hf) as Hin.
    destruct (String.eqb entity_type ty) eqn:E; [|now apply IH].
    apply String.eqb_eq in E. subst ty. contradiction.
Qed.

(** With unique bucket names, a state change rewrites the binding of its id
    in the bucket that owns the id, and nothing else. *)
Lemma lookup_apply_change_owner change r entity_type entity_id :
  NoDup (Dict.keys r) ->
  lookup entity_type entity_id (fst (apply_change change r))
  = if String.eqb entity_id (sc_entity_id change)
       && owner_is entity_type (sc_entity_id change) (shape r)
    then option_map (change_entity change) (lookup entity_type entity_id r)
    else lookup entity_type entity_id r.
Proof.
  intros Hnd. unfold owner_is. rewrite find_entity_owner.
  destruct (find_entity (sc_entity_id change) r) as [[ty0 e0]|] eqn:Hf; simpl.
  - rewrite (lookup_apply_change_exact _ _ _ _ _ _ Hnd Hf).
    pose proof (find_entity_lookup _ _ _ _ Hnd Hf) as Hl.
    rewrite (String.eqb_sym ty0 entity_type).
    destruct (String.eqb entity_type ty0) eqn:Et;
      destruct (String.eqb entity_id (sc_entity_id change)) eqn:Ei;
      simpl; try reflexivity.
    apply String.eqb_eq in Et, Ei. subst. now rewrite Hl.
  - rewrite (apply_change_not_found _ _ Hf). simpl.
    now rewrite andb_false_r.
Qed.

Lemma lookup_apply_changes_owner state_changes r entity_type entity_id :
  NoDup (Dict.keys r) ->
  lookup entity_type entity_id (apply_changes state_changes r)
  = if owner_is entity_type entity_id (shape r)
    then option_map (apply_to (filter (targets entity_id) state_changes))
                    (lookup entity_type entity_id r)
    else lookup entity_type entity_id r.
Proof.
  unfold apply_changes, apply_to. revert r.
  induction state_changes as [|c cs IH]; intros r Hnd; simpl.
  - destruct (owner_is entity_type entity_id (shape r)); [|reflexivity].
    now destruct (lookup entity_type entity_id r).
  - rewrite IH by (now rewrite keys_apply_change).
    rewrite shape_apply_change, (lookup_apply_change_owner _ _ _ _ Hnd).
    unfold targets. rewrite (String.eqb_sym (sc_entity_id c) entity_id).
    destruct (String.eqb entity_id (sc_entity_id c)) eqn:Ei; simpl.
    + apply String.eqb_eq in Ei. rewrite <- Ei.
      destruct (owner_is entity_type entity_id (shape r)); [|reflexivity].
      now destruct (lookup entity_type entity_id r).
    + reflexivity.
Qed.

Lemma lookup_register_fold entities_new r entity_type entity_id :
  lookup entity_type entity_id
    (fold_left (fun r n => register_entity n r) entities_new r)
  = match last_registration entity_type entity_id entities_new with
    | Some n => Some (fresh_entity n)
    | None => lookup entity_type entity_id r
    end.
Proof.
  revert r. induction entities_new as [|n ns IH]; intros r; simpl; [reflexivity|].
  rewrite IH.
  destruct (last_registration entity_type entity_id ns); [reflexivity|].
  rewrite lookup_register_entity.
  now destruct (registers entity_type entity_id n).
Qed.

Lemma shape_modify (f : bucket -> bucket) entity_type r :
  (forall entities, Dict.get entity_type r = Some entities ->
                    Dict.keys (f entities) = Dict.keys entities) ->
  shape (Dict.modify entity_type f r) = shape r.
Proof.
  unfold shape. induction r as [|[ty entities] rest IH]; simpl; [reflexivity|].
  destruct (String.eqb entity_type ty) eqn:E; simpl; intros H.
  - now rewrite H.
  - now rewrite IH.
Qed.

(** Registering an id that is already bound adds no bucket and no id. *)
Lemma shape_register_present new_entity r ent :
  lookup (ne_type new_entity) (ne_suggested_id new_entity) r = Some ent ->
  shape (register_entity new_entity r) = shape r.
Proof.
  unfold lookup, register_entity. intros H.
  destruct (Dict.get (ne_type new_entity) r) as [entities|] eqn:Hb; [|discriminate].
  assert (Hmem : Dict.mem (ne_type new_entity) r = true)
    by (unfold Dict.mem; now rewrite Hb).
  rewrite DictFacts.setdefault_get_present by exact Hmem.
  apply shape_modify. intros entities' Hg. rewrite Hb in Hg.
  injection Hg as <-.
  apply DictFacts.keys_set_present. unfold Dict.mem. now rewrite H.
Qed.

Lemma shape_register_fold_present entities_new r :
  Forall (fun n => lookup (ne_type n) (ne_suggested_id n) r <> None) entities_new ->
  shape (fold_left (fun r n => register_entity n r) entities_new r) = shape r.
Proof.
  revert r. induction entities_new as [|n ns IH]; intros r Hall; simpl; [reflexivity|].
  inversion Hall as [|? ? Hn Hns]; subst.
  destruct (lookup (ne_type n) (ne_suggested_id n) r) as [e|] eqn:Hl; [|congruence].
  rewrite IH.
  - exact (shape_register_present _ _ _ Hl).
  - eapply Forall_impl; [|exact Hns]. intros m Hm.
    rewrite lookup_register_entity.
    destruct (registers (ne_type m) (ne_suggested_id m) n); [discriminate | exact Hm].
Qed.

Lemma registers_self new_entity :
  registers (ne_type new_entity) (ne_suggested_id new_entity) new_entity = true.
Proof. unfold registers. now rewrite !String.eqb_refl. Qed.

Lemma last_registration_in entities_new entity_type entity_id n :
  In n entities_new -> registers entity_type entity_id n = true ->
  last_registration entity_type entity_id entities_new <> None.
Proof.
  induction entities_new as [|m ms IH]; simpl; [tauto|].
  intros [->|Hin] Hr.
  - destruct (last_registration entity_type entity_id ms); [discriminate|].
    rewrite Hr. discriminate.
  - specialize (IH Hin Hr).
    destruct (last_registration entity_type entity_id ms); [discriminate|congruence].
Qed.

(** After a merge, every proposed id is bound. *)
Lemma merge_registry_registered entities_new state_changes r :
  Forall (fun n => lookup (ne_type n) (ne_suggested_id n)
                     (merge_registry entities_new state_changes r) <> None)
         entities_new.
Proof.
  rewrite Forall_forall. intros n Hin. unfold merge_registry.
  pose proof (last_registration_in _ _ _ _ Hin (registers_self n)) as Hlast.
  destruct (last_registration (ne_type n) (ne_suggested_id n) entities_new)
    as [m|] eqn:Hm; [|congruence].
  pose proof (lookup_register_fold entities_new r (ne_type n) (ne_suggested_id n))
    as Hl.
  rewrite Hm in Hl.
  destruct (lookup_apply_changes state_changes _ _ _ _ Hl) as [e' [_ [H' _]]].
  rewrite H'. discriminate.
Qed.

Lemma shape_merge_registry_twice entities_new state_changes r :
  shape (merge_registry entities_new state_changes
           (merge_registry entities_new state_changes r))
  = shape (merge_registry entities_new state_changes r).
Proof.
  unfold merge_registry at 1. rewrite shape_apply_changes.
  apply shape_register_fold_present, merge_registry_registered.
Qed.

(** A second merge of the same proposals leaves every record as the first
    merge left it, except for the record's history. *)
Lemma lookup_merge_registry_twice entities_new state_changes r
    entity_type entity_id :
  registry_wf r ->
  option_map forget_history
    (lookup entity_type entity_id
       (merge_registry entities_new state_changes
          (merge_registry entities_new state_changes r)))
  = option_map forget_history
      (lookup entity_type entity_id
         (merge_registry entities_new state_changes r)).
Proof.
  intros Hwf.
  set (regs := fold_left (fun r n => register_entity n r) entities_new).
  set (r1 := regs r).
  set (r2 := merge_registry entities_new state_changes r).
  set (r3 := regs r2).
  assert (Hwf1 : registry_wf r1) by now apply register_fold_wf.
  assert (Hwf2 : registry_wf r2) by now apply merge_registry_wf.
  assert (Hwf3 : registry_wf r3) by now apply register_fold_wf.
  assert (Hs2 : shape r2 = shape r1) by apply shape_apply_changes.
  assert (Hs3 : shape r3 = shape r1).
  { rewrite <- Hs2. apply shape_register_fold_present, merge_registry_registered. }
  assert (H2 : lookup entity_type entity_id r2
               = if owner_is entity_type entity_id (shape r1)
                 then option_map (apply_to (filter (targets entity_id) state_changes))
                        (lookup entity_type entity_id r1)
                 else lookup entity_type entity_id r1).
  { apply lookup_apply_changes_owner. exact (proj1 Hwf1). }
  assert (H4 : lookup entity_type entity_id
                 (merge_registry entities_new state_changes r2)
               = if owner_is entity_type entity_id (shape r1)
                 then option_map (apply_to (filter (targets entity_id) state_changes))
                        (lookup entity_type entity_id r3)
                 else lookup entity_type entity_id r3).
  { rewrite <- Hs3. apply lookup_apply_changes_owner. exact (proj1 Hwf3). }
  assert (H1 : lookup entity_type entity_id r1
               = match last_registration entity_type entity_id entities_new with
                 | Some n => Some (fresh_entity n)
                 | None => lookup entity_type entity_id r
                 end) by apply lookup_register_fold.
  assert (H3 : lookup entity_type entity_id r3
               = match last_registration entity_type entity_id entities_new with
                 | Some n => Some (fresh_entity n)
                 | None => lookup entity_type entity_id r2
                 end) by apply lookup_register_fold.
  rewrite H4.
  destruct (last_registration entity_type entity_id entities_new) as [n|].
  - rewrite H3, H2, H1. reflexivity.
  - rewrite H3. rewrite H2.
    destruct (owner_is entity_type entity_id (shape r1)); [|reflexivity].
    destruct (lookup entity_type entity_id r1) as [e|]; [|reflexivity].
    cbn [option_map]. now rewrite forget_history_apply_to_twice.
Qed.

(** *** The chapters relation *)

Lemma filter_filter {A : Type} (p : A -> bool) (l : list A) :
  filter p (filter p l) = filter p l.
Proof.
  induction l as [|x l IH]; simpl; [reflexivity|].
  destruct (p x) eqn:E; simpl; [rewrite E|]; now rewrite ?IH.
Qed.

(** A second write under the same primary key replaces the first. *)
Lemma insert_or_replace_chapter_twice row1 row2 rows :
  ch_chapter row1 = ch_chapter row2 ->
  insert_or_replace_chapter row2 (insert_or_replace_chapter row1 rows)
  = insert_or_replace_chapter row2 rows.
Proof.
  intros Hkey. unfold insert_or_replace_chapter.
  rewrite filter_app, Hkey, filter_filter. simpl.
  rewrite <- Hkey at 1. rewrite Z.eqb_refl. simpl. now rewrite app_nil_r.
Qed.

(** After a write there is exactly one row under the written key. *)
Lemma insert_or_replace_chapter_one_row row rows :
  filter (fun r => (ch_chapter r =? ch_chapter row)%Z)
         (insert_or_replace_chapter row rows)
  = [row].
Proof.
  unfold insert_or_replace_chapter. rewrite filter_app. simpl.
  rewrite Z.eqb_refl.
  assert (H : filter (fun r => (ch_chapter r =? ch_chapter row)%Z)
                (filter (fun r => negb (ch_chapter r =? ch_chapter row)%Z) rows)
              = []).
  { induction rows as [|x l IH]; simpl; [reflexivity|].
    destruct (ch_chapter x =? ch_chapter row)%Z eqn:E; simpl; [exact IH|].
    now rewrite E. }
  now rewrite H.
Qed.

(** *** The main flow *)

Lemma disambiguate_that_gentleman :
  disambiguate [that_gentleman]
  = Ok ([adoption that_gentleman yefan_candidate high_reason], []).
Proof. reflexivity. Qed.

(** [main] on a stored state and index: the disambiguation of the one fixed
    uncertain mention cannot fail, so the run is the merge followed by the
    index write. *)
Lemma process_chapter_unfold now_state now_index text st db :
  process_chapter now_state now_index text (st, db)
  = (st' <- update_state now_state st
              (entities_appeared (extract_entities text (st_entities_v3 st)
                                    (st_alias_index st)))
              (entities_new (extract_entities text (st_entities_v3 st)
                               (st_alias_index st)))
              (state_changes (extract_entities text (st_entities_v3 st)
                                (st_alias_index st)))
              [landlord_tenant] ;;
     Ok (st',
         insert_chapter_data now_index db 1 "租房" "静雅小区" 4500
           (entities_appeared (extract_entities text (st_entities_v3 st)
                                 (st_alias_index st)))
           (chunk_scenes text))).
Proof.
  unfold process_chapter.
  change (uncertain (extract_entities text (st_entities_v3 st) (st_alias_index st)))
    with [that_gentleman].
  rewrite disambiguate_that_gentleman. reflexivity.
Qed.

(** The proposals depend on the chapter text only. *)
Lemma extract_entities_text_only text r a r' a' :
  extract_entities text r a = extract_entities text r' a'.
Proof. reflexivity. Qed.

Lemma process_chapter_inv now_state now_index text st db st' db' :
  process_chapter now_state now_index text (st, db) = Ok (st', db') ->
  let ex := extract_entities text [] [] in
  update_state now_state st (entities_appeared ex) (entities_new ex)
    (state_changes ex) [landlord_tenant] = Ok st'
  /\ db' = insert_chapter_data now_index db 1 "租房" "静雅小区" 4500
             (entities_appeared ex) (chunk_scenes text).
Proof.
  rewrite process_chapter_unfold.
  rewrite (extract_entities_text_only text _ _ [] []).
  intros H ex. fold ex in H.
  destruct (update_state now_state st (entities_appeared ex) (entities_new ex)
              (state_changes ex) [landlord_tenant]) as [s|e]; cbn [bind] in H.
  - injection H as Hs Hd. split; [now rewrite Hs | now rewrite <- Hd].
  - discriminate H.
Qed.

Lemma update_state_relationships now st appeared entities_new state_changes rels st' :
  update_state now st appeared entities_new state_changes rels = Ok st' ->
  st_relationships st'
  = Some (match st_relationships st with Some l => l | None => [] end
          ++ stamp_relationships now 0 rels).
Proof.
  unfold update_state.
  destruct (register_all entities_new (st_entities_v3 st, st_alias_index st)).
  destruct (st_metadata st); [|discriminate].
  now intros [= <-].
Qed.

(** C9 (as the code has it).  When the same chapter is processed a second
    time on the stored result of the first run, the data written by key comes
    out as after the first run: the chapters relation is what one run alone
    would have written, with exactly one row for the chapter; the registry has
    the same type buckets and ids; and every entity record equals the record
    of the first run except for its history.  Appended data is appended again:
    the relationship list grows by the edge once more, and the history of an
    entity that is not registered anew keeps its records and is only
    extended. *)
Theorem reprocessing_same_chapter
    now1 idx1 now2 idx2 text st db st1 db1 st2 db2 :
  registry_wf (st_entities_v3 st) ->
  process_chapter now1 idx1 text (st, db) = Ok (st1, db1) ->
  process_chapter now2 idx2 text (st1, db1) = Ok (st2, db2) ->
  let ex := extract_entities text (st_entities_v3 st) (st_alias_index st) in
  db_chapters db2
  = db_chapters (insert_chapter_data idx2 db 1 "租房" "静雅小区" 4500
                   (entities_appeared ex) (chunk_scenes text))
  /\ length (filter (fun row => (ch_chapter row =? 1)%Z) (db_chapters db2)) = 1%nat
  /\ shape (st_entities_v3 st2) = shape (st_entities_v3 st1)
  /\ (forall entity_type entity_id,
         option_map forget_history
           (lookup entity_type entity_id (st_entities_v3 st2))
         = option_map forget_history
             (lookup entity_type entity_id (st_entities_v3 st1)))
  /\ (exists rels1,
         st_relationships st1 = Some rels1
         /\ st_relationships st2
            = Some (rels1 ++ [make_relationship (now2 0%nat) landlord_tenant]))
  /\ (forall entity_type entity_id ent1,
         lookup entity_type entity_id (st_entities_v3 st1) = Some ent1 ->
         forallb (fun n => negb (registers entity_type entity_id n))
                 (entities_new ex) = true ->
         exists ent2 suffix,
           lookup entity_type entity_id (st_entities_v3 st2) = Some ent2
           /\ e_history ent2 = e_history ent1 ++ suffix).
Proof.
  intros Hwf Hrun1 Hrun2 ex.
  change ex with (extract_entities text [] []). clear ex.
  apply process_chapter_inv in Hrun1. apply process_chapter_inv in Hrun2.
  cbv zeta in Hrun1, Hrun2.
  set (ex := extract_entities text [] []) in *.
  destruct Hrun1 as [Hupd1 ->]. destruct Hrun2 as [Hupd2 ->].
  pose proof (update_state_registry _ _ _ _ _ _ _ Hupd1) as Hreg1.
  pose proof (update_state_registry _ _ _ _ _ _ _ Hupd2) as Hreg2.
  rewrite Hreg1 in Hreg2.
  pose proof (update_state_relationships _ _ _ _ _ _ _ Hupd1) as Hrel1.
  pose proof (update_state_relationships _ _ _ _ _ _ _ Hupd2) as Hrel2.
  split; [|split; [|split; [|split; [|split]]]].
  - cbn [insert_chapter_data db_chapters].
    now apply insert_or_replace_chapter_twice.
  - cbn [insert_chapter_data db_chapters].
    match goal with
    | |- context [insert_or_replace_chapter ?row ?rows] =>
        pose proof (insert_or_replace_chapter_one_row row rows) as Hone
    end.
    cbn [ch_chapter] in Hone. now rewrite Hone.
  - rewrite Hreg2, Hreg1. apply shape_merge_registry_twice.
  - intros ty id. rewrite Hreg2, Hreg1.
    now apply lookup_merge_registry_twice.
  - eexists. split; [exact Hrel1|].
    rewrite Hrel2, Hrel1. reflexivity.
  - intros ty id ent1 Hlook Hother.
    rewrite Hreg2. rewrite Hreg1 in Hlook.
    now apply merge_registry_history.
Qed.

Lemma stored_state_wf : registry_wf (st_entities_v3 stored_state).
Proof.
  split.
  - repeat constructor. simpl. tauto.
  - repeat constructor. simpl. tauto.
Qed.

Lemma reprocessing_same_chapter_witness :
  exists st1 db1 st2 db2,
    first_run = Ok (st1, db1)
    /\ second_run = Ok (st2, db2)
    /\ shape (st_entities_v3 st2) = shape (st_entities_v3 st1)
    /\ length (filter (fun row => (ch_chapter row =? 1)%Z) (db_chapters db2)) = 1%nat
    /\ option_map forget_history (lookup "角色" "yefan" (st_entities_v3 st2))
       = option_map forget_history (lookup "角色" "yefan" (st_entities_v3 st1)).
Proof.
  do 4 eexists.
  split; [vm_compute; reflexivity|].
  split; [vm_compute; reflexivity|].
  match goal with
  | |- shape (st_entities_v3 ?s2) = shape (st_entities_v3 ?s1) /\
       length (filter _ (db_chapters ?d2)) = _ /\ _ =>
      pose proof (reprocessing_same_chapter sample_clock sample_clock
                    sample_clock sample_clock plain_scenario_text
                    stored_state empty_db s1 _ s2 d2
                    stored_state_wf eq_refl eq_refl) as P
  end.
  cbv zeta in P. destruct P as (_ & Hone & Hshape & Hsame & _).
  split; [exact Hshape|]. split; [exact Hone|].
  exact (Hsame "角色" "yefan").
Defined.

(** C9 as stated fails: the second run of the same chapter, with the same
    proposals and even the same clock readings, leaves a different store:
    two more history records for yefan, the relationship edge a second time,
    and the appearance and scene rows a second time. *)
Lemma second_run_duplicates :
  first_run <> second_run
  /\ observe (history_length "角色" "yefan") first_run = Some (Some 3%nat)
  /\ observe (history_length "角色" "yefan") second_run = Some (Some 5%nat)
  /\ observe relationship_count first_run = Some (Some 1%nat)
  /\ observe relationship_count second_run = Some (Some 2%nat)
  /\ observe (fun s => length (db_entity_appearances (snd s))) first_run
     = Some 2%nat
  /\ observe (fun s => length (db_entity_appearances (snd s))) second_run
     = Some 4%nat
  /\ observe (fun s => length (db_scenes (snd s))) first_run = Some 4%nat
  /\ observe (fun s => length (db_scenes (snd s))) second_run = Some 8%nat.
Proof.
  split.
  - intros H.
    assert (H' : observe relationship_count first_run
                 = observe relationship_count second_run) by now rewrite H.
    vm_compute in H'. discriminate H'.
  - repeat split; vm_compute; reflexivity.
Qed.

(** * Further properties of the code *)

(** ** Disambiguation: failures, accounting, composition *)

Lemma Qgtb_upper_lower (c : Q) : Qgtb c 0.8 = true -> Qgtb c 0.5 = true.
Proof.
  rewrite !Qgtb_true_iff. intros H.
  eapply Qlt_trans; [|exact H]. reflexivity.
Qed.

Lemma disambiguate_step_blocked acc item e :
  blocking_error item = Some e -> disambiguate_step acc item = Err e.
Proof.
  unfold blocking_error, adopts. destruct acc as [adopted warnings].
  unfold disambiguate_step, top_candidate_id.
  destruct (Qgtb (confidence_of item) 0.5) eqn:Hmid; [|discriminate].
  destruct (Qgtb (confidence_of item) 0.8);
    destruct (u_candidates item) as [[|top rest]|]; intros [= <-]; reflexivity.
Qed.

(** What one mention that does not raise adds to the two lists, whatever
    they hold so far. *)
Lemma disambiguate_step_free item :
  blocking_error item = None ->
  exists out,
    (forall acc,
        disambiguate_step acc item = Ok (fst acc ++ fst out, snd acc ++ snd out))
    /\ map a_mention (fst out) = (if adopts item then [u_mention item] else [])
    /\ map a_confidence (fst out)
       = (if adopts item then [confidence_of item] else [])
    /\ length (snd out) = (if warns item then 1%nat else 0%nat)
    /\ length (filter is_manual_review (snd out))
       = (if adopts item then 0%nat else 1%nat).
Proof.
  unfold blocking_error, adopts, warns.
  unfold disambiguate_step, top_candidate_id.
  destruct (Qgtb (confidence_of item) 0.8) eqn:Hhi.
  - rewrite (Qgtb_upper_lower _ Hhi).
    destruct (u_candidates item) as [[|top rest]|]; try discriminate.
    intros _. exists ([adoption item top high_reason], []).
    split; [|repeat split].
    intros [adopted warnings]. cbn [bind fst snd]. now rewrite app_nil_r.
  - destruct (Qgtb (confidence_of item) 0.5) eqn:Hmid.
    + destruct (u_candidates item) as [[|top rest]|]; try discriminate.
      intros _.
      exists ([adoption item top medium_reason],
              [MediumConfidence (u_mention item) (cand_id top) (confidence_of item)]).
      split; [|repeat split].
      intros [adopted warnings]. reflexivity.
    + intros _. exists ([], [NeedsManualReview (u_mention item)]).
      split; [|repeat split].
      intros [adopted warnings]. cbn [fst snd]. now rewrite app_nil_r.
Qed.

(** The loop on any accumulators is the run from empty lists, appended. *)
Lemma disambiguate_loop_acc uncertain acc :
  disambiguate_loop uncertain acc
  = (out <- disambiguate uncertain ;;
     Ok (fst acc ++ fst out, snd acc ++ snd out)).
Proof.
  unfold disambiguate. revert acc.
  induction uncertain as [|item l IH]; intros acc.
  - simpl. rewrite !app_nil_r. now destruct acc.
  - cbn [disambiguate_loop].
    destruct (blocking_error item) as [e|] eqn:Hb.
    + rewrite !(disambiguate_step_blocked _ _ _ Hb). reflexivity.
    + destruct (disambiguate_step_free item Hb) as [out [Hstep _]].
      rewrite (Hstep acc), (Hstep ([], [])). cbn [bind fst snd app].
      rewrite (IH (fst acc ++ fst out, snd acc ++ snd out)).
      rewrite (IH (fst out, snd out)).
      destruct (disambiguate_loop l ([], [])) as [[a w]|e]; cbn [bind fst snd].
      * now rewrite !app_assoc.
      * reflexivity.
Qed.

Lemma disambiguate_cons item uncertain :
  disambiguate (item :: uncertain)
  = (out <- disambiguate_step ([], []) item ;;
     rest <- disambiguate uncertain ;;
     Ok (fst out ++ fst rest, snd out ++ snd rest)).
Proof.
  unfold disambiguate at 1. cbn [disambiguate_loop].
  destruct (disambiguate_step ([], []) item) as [out|e]; cbn [bind]; [|reflexivity].
  apply disambiguate_loop_acc.
Qed.

Lemma disambiguate_concat (l1 l2 : list uncertain_item) :
  disambiguate (l1 ++ l2)
  = (r1 <- disambiguate l1 ;;
     r2 <- disambiguate l2 ;;
     Ok (fst r1 ++ fst r2, snd r1 ++ snd r2)).
Proof.
  induction l1 as [|item l1 IH].
  - cbn [app]. change (disambiguate []) with (@Ok (list adopted_entry * list warning) ([], [])).
    cbn [bind fst snd app].
    destruct (disambiguate l2) as [[a w]|e]; reflexivity.
  - cbn [app]. rewrite !disambiguate_cons, IH.
    destruct (disambiguate_step ([], []) item) as [out|e]; cbn [bind]; [|reflexivity].
    destruct (disambiguate l1) as [r1|e]; cbn [bind]; [|reflexivity].
    destruct (disambiguate l2) as [r2|e]; cbn [bind fst snd]; [|reflexivity].
    now rewrite !app_assoc.
Qed.

(** X3.  Mentions are resolved one by one: the result on a concatenation is
    the concatenation of the results, and an exception of the first part, or
    else of the second, is the exception of the whole. *)
Theorem disambiguate_app (l1 l2 : list uncertain_item) :
  disambiguate (l1 ++ l2)
  = (r1 <- disambiguate l1 ;;
     r2 <- disambiguate l2 ;;
     Ok (fst r1 ++ fst r2, snd r1 ++ snd r2)).
Proof. exact (disambiguate_concat l1 l2). Qed.

Lemma disambiguate_free uncertain :
  Forall (fun item => blocking_error item = None) uncertain ->
  exists r, disambiguate uncertain = Ok r.
Proof.
  induction 1 as [|item l Hb _ [r Hr]].
  - now exists ([], []).
  - rewrite disambiguate_cons.
    destruct (disambiguate_step_free item Hb) as [out [Hstep _]].
    rewrite (Hstep ([], [])), Hr. cbn [bind]. eauto.
Qed.

(** X1.  [disambiguate] raises exactly when some mention in an adopting tier
    (confidence above 0.5) has no top candidate, and then it raises the
    exception of the first such mention: [IndexError] for an empty candidate
    list, [KeyError] for a missing ['candidates'] key.  Nothing of what was
    resolved before that mention is returned. *)
Theorem disambiguate_raises_iff (uncertain : list uncertain_item) (e : error) :
  disambiguate uncertain = Err e
  <-> exists before item after,
        uncertain = before ++ item :: after
        /\ Forall (fun i => blocking_error i = None) before
        /\ blocking_error item = Some e.
Proof.
  split.
  - induction uncertain as [|item l IH].
    + discriminate.
    + rewrite disambiguate_cons.
      destruct (blocking_error item) as [e'|] eqn:Hb.
      * rewrite (disambiguate_step_blocked _ _ _ Hb). intros [= <-].
        exists [], item, l. repeat split; [constructor | exact Hb].
      * destruct (disambiguate_step_free item Hb) as [out [Hstep _]].
        rewrite (Hstep ([], [])). cbn [bind].
        destruct (disambiguate l) as [r|e'] eqn:Hl; cbn [bind]; [discriminate|].
        intros [= <-].
        destruct (IH eq_refl) as (before & it & after & Heq & Hfree & Hblk).
        exists (item :: before), it, after. subst l.
        repeat split; [constructor; assumption | exact Hblk].
  - intros (before & item & after & -> & Hfree & Hblk).
    rewrite disambiguate_concat.
    destruct (disambiguate_free before Hfree) as [r Hr]. rewrite Hr. cbn [bind].
    rewrite disambiguate_cons, (disambiguate_step_blocked _ _ _ Hblk). reflexivity.
Qed.

Lemma disambiguate_raises_iff_witness :
  disambiguate [low_mention_no_candidate; mention_without_key;
                high_mention_no_candidate]
  = Err (KeyError "candidates").
Proof.
  apply (proj2 (disambiguate_raises_iff _ _)).
  exists [low_mention_no_candidate], mention_without_key,
         [high_mention_no_candidate].
  split; [reflexivity|]. split; [|reflexivity].
  repeat constructor.
Defined.

(** X2.  When [disambiguate] returns, the adopted entries are, in input order,
    exactly the mentions with confidence above 0.5, each with its own
    confidence; there is one warning per mention with confidence at most 0.8;
    and every mention is accounted for, either adopted or flagged for manual
    review, never both and never neither. *)
Theorem disambiguate_accounting uncertain adopted warnings :
  disambiguate uncertain = Ok (adopted, warnings) ->
  map a_mention adopted = map u_mention (filter adopts uncertain)
  /\ map a_confidence adopted = map confidence_of (filter adopts uncertain)
  /\ length warnings = length (filter warns uncertain)
  /\ (length adopted + length (filter is_manual_review warnings)
      = length uncertain)%nat.
Proof.
  revert adopted warnings.
  induction uncertain as [|item l IH]; intros adopted warnings.
  - intros [= <- <-]. repeat split.
  - rewrite disambiguate_cons.
    destruct (blocking_error item) as [e'|] eqn:Hb.
    + rewrite (disambiguate_step_blocked _ _ _ Hb). discriminate.
    + destruct (disambiguate_step_free item Hb)
        as (out & Hstep & Hm & Hc & Hw & Hr).
      rewrite (Hstep ([], [])). cbn [bind fst snd app].
      destruct (disambiguate l) as [[a w]|e'] eqn:Hl; cbn [bind fst snd];
        [|discriminate].
      intros [= <- <-].
      destruct (IH a w eq_refl) as (IH1 & IH2 & IH3 & IH4).
      rewrite !map_app, !length_app, filter_app, length_app.
      rewrite Hm, Hc, Hw, Hr, IH1, IH2, IH3. cbn [filter].
      assert (Hlen : length (fst out) = if adopts item then 1%nat else 0%nat).
      { rewrite <- (length_map a_mention), Hm. now destruct (adopts item). }
      rewrite Hlen.
      destruct (adopts item), (warns item); cbn [map app length];
        repeat split; try reflexivity.
      all: rewrite <- IH4; cbn; rewrite ?Nat.add_succ_r; reflexivity.
Qed.

Lemma disambiguate_accounting_witness :
  exists adopted warnings,
    disambiguate [high_mention; low_mention_no_candidate; boundary_mention]
    = Ok (adopted, warnings)
    /\ map a_mention adopted = ["那位先生"; "那位先生"]
    /\ length warnings = 2%nat
    /\ (length adopted + length (filter is_manual_review warnings) = 3)%nat.
Proof.
  do 2 eexists.
  assert (H : disambiguate [high_mention; low_mention_no_candidate;
                            boundary_mention] = Ok (_, _))
    by (vm_compute; reflexivity).
  destruct (disambiguate_accounting _ _ _ H) as (H1 & _ & H3 & H4).
  split; [exact H|]. split; [exact H1|]. split; [exact H3 | exact H4].
Defined.

(** ** Extraction: what every text yields *)

Ltac split_all := repeat match goal with |- _ /\ _ => split end.


(** X4.  Whatever the chapter text and the known entities, the extraction
    proposes at most two appeared entities and at most three new entities,
    with pairwise distinct ids, and at most three state changes, each for
    yefan or guwanqing and none or both of yefan's; the proposals do not depend
    on the known entities or aliases at all. *)
Theorem extract_entities_invariants text existing_entities alias_to_entities :
  let ex := extract_entities text existing_entities alias_to_entities in
  (length (entities_appeared ex) <= 2)%nat
  /\ NoDup (map ea_id (entities_appeared ex))
  /\ (length (entities_new ex) <= 3)%nat
  /\ NoDup (map ne_suggested_id (entities_new ex))
  /\ (length (state_changes ex) <= 3)%nat
  /\ Forall (fun change => sc_entity_id change = "yefan"
                           \/ sc_entity_id change = "guwanqing")
            (state_changes ex)
  /\ (length (filter (targets "yefan") (state_changes ex)) = 0%nat
      \/ length (filter (targets "yefan") (state_changes ex)) = 2%nat)
  /\ ex = extract_entities text [] [].
Proof.
  unfold extract_entities.
  cbn [entities_appeared entities_new state_changes].
  destruct (str_in "叶凡" text), (str_in "顾晚晴" text),
    (str_in "中年妇女" text && str_in "房东直租" text),
    (str_in "静雅小区" text),
    (str_in "602室" text || str_in "3号楼" text),
    (str_in "租房" text && str_in "加微信" text),
    (str_in "租出去" text || str_in "还房贷" text);
    cbn [when app map length filter targets];
    split_all;
    try reflexivity;
    try (repeat constructor; fail);
    try (repeat (constructor; [simpl; intuition discriminate|]); constructor);
    try (repeat (constructor; [auto|]); constructor);
    try (left; reflexivity); try (right; reflexivity).
Qed.

Lemma prefix_append needle text more :
  String.prefix needle text = true ->
  String.prefix needle (text ++ more) = true.
Proof.
  revert needle. induction text as [|b text IH]; intros needle.
  - destruct needle; [|discriminate]. intros _. now destruct more.
  - destruct needle as [|a needle]; [reflexivity|]. cbn.
    destruct (Ascii.ascii_dec a b); [apply IH | discriminate].
Qed.

Lemma str_in_append_l needle text more :
  str_in needle text = true -> str_in needle (text ++ more) = true.
Proof.
  induction text as [|b text IH].
  - cbn [str_in]. destruct (String.prefix needle EmptyString) eqn:Hp; [|discriminate].
    intros _. destruct needle; [|discriminate]. now destruct more.
  - cbn [str_in append].
    destruct (String.prefix needle (String b text)) eqn:Hp.
    + intros _. change (String b (text ++ more)) with (String b text ++ more)%string.
      now rewrite (prefix_append _ _ more Hp).
    + intros H. rewrite (IH H).
      now destruct (String.prefix needle (String b (text ++ more))).
Qed.

Lemma str_in_append_r needle text more :
  str_in needle more = true -> str_in needle (text ++ more) = true.
Proof.
  intros H. induction text as [|b text IH]; [exact H|].
  cbn [str_in append]. rewrite IH.
  now destruct (String.prefix needle (String b (text ++ more))).
Qed.

Lemma incl_when {A : Type} (b b' : bool) (xs : list A) :
  (b = true -> b' = true) -> incl (when b xs) (when b' xs).
Proof.
  destruct b; cbn [when].
  - intros H. rewrite (H eq_refl). apply incl_refl.
  - intros _ x [].
Qed.

(** The proposals of a text are among those of any text that contains every
    phrase the first one contains. *)
Lemma extract_entities_monotone text text' :
  (forall needle, str_in needle text = true -> str_in needle text' = true) ->
  incl (entities_appeared (extract_entities text [] []))
       (entities_appeared (extract_entities text' [] []))
  /\ incl (entities_new (extract_entities text [] []))
          (entities_new (extract_entities text' [] []))
  /\ incl (state_changes (extract_entities text [] []))
          (state_changes (extract_entities text' [] [])).
Proof.
  intros Hmono. unfold extract_entities.
  cbn [entities_appeared entities_new state_changes].
  assert (Hand : forall a b, (str_in a text && str_in b text = true ->
                              str_in a text' && str_in b text' = true)).
  { intros a b H. apply andb_true_iff in H. destruct H as [Ha Hb].
    now rewrite (Hmono _ Ha), (Hmono _ Hb). }
  assert (Hor : forall a b, (str_in a text || str_in b text = true ->
                             str_in a text' || str_in b text' = true)).
  { intros a b H. apply orb_true_iff in H. destruct H as [Ha|Hb].
    - now rewrite (Hmono _ Ha).
    - rewrite (Hmono _ Hb). apply orb_true_r. }
  split_all; repeat apply incl_app_app; apply incl_when; auto.
Qed.

(** X5.  Text added before or after a chapter never removes a proposal: every
    appeared entity, new entity and state change proposed for a text is also
    proposed for the text with more text around it. *)
Theorem extract_entities_more_text before text after
    existing_entities alias_to_entities :
  let ex := extract_entities text existing_entities alias_to_entities in
  let ex' :=
    extract_entities (before ++ text ++ after) existing_entities
      alias_to_entities in
  incl (entities_appeared ex) (entities_appeared ex')
  /\ incl (entities_new ex) (entities_new ex')
  /\ incl (state_changes ex) (state_changes ex')
  /\ relationships_new ex = relationships_new ex'
  /\ uncertain ex = uncertain ex'.
Proof.
  cbv zeta.
  destruct (extract_entities_monotone text (before ++ text ++ after))
    as (H1 & H2 & H3).
  { intros needle H. apply str_in_append_r, str_in_append_l, H. }
  split_all; try assumption; reflexivity.
Qed.

(** ** Style samples *)

(** X6.  [evaluate_style_sample] returns at most one sample.  It returns one
    exactly when the review score is at least 80 (80 included) and the text
    contains the phone-case phrase; the sample carries the score it was given
    and chapter 1. *)
Theorem evaluate_style_sample_spec (review_score : Q) (text : string) :
  (evaluate_style_sample review_score text <> []
   <-> (80 <= review_score)%Q /\ str_in "手机壳" text = true)
  /\ (length (evaluate_style_sample review_score text) <= 1)%nat
  /\ Forall (fun s => ss_score s = review_score /\ ss_chapter s = 1%Z)
            (evaluate_style_sample review_score text).
Proof.
  unfold evaluate_style_sample.
  destruct (Qle_bool 80 review_score) eqn:Hs.
  - apply Qle_bool_iff in Hs.
    destruct (str_in "手机壳" text); cbn [when length]; split_all.
    + split; [intros _; now split | discriminate].
    + apply le_n.
    + repeat constructor.
    + split; [congruence | intros [_ H]; discriminate H].
    + apply le_0_n.
    + constructor.
  - split_all.
    + split; [congruence|]. intros [Hle _].
      apply Qle_bool_iff in Hle. congruence.
    + apply le_0_n.
    + constructor.
Qed.

Lemma evaluate_style_sample_spec_witness :
  evaluate_style_sample 80 "叶凡调侃她的手机壳" <> []
  /\ evaluate_style_sample 79.5 "叶凡调侃她的手机壳" = [].
Proof.
  split.
  - apply (proj2 (proj1 (evaluate_style_sample_spec 80 "叶凡调侃她的手机壳"))).
    split; [discriminate | reflexivity].
  - destruct (evaluate_style_sample 79.5 "叶凡调侃她的手机壳") eqn:E; [reflexivity|].
    exfalso.
    assert (H : evaluate_style_sample 79.5 "叶凡调侃她的手机壳" <> [])
      by (rewrite E; discriminate).
    apply (proj1 (proj1 (evaluate_style_sample_spec 79.5 "叶凡调侃她的手机壳"))) in H.
    destruct H as [H _]. apply H. reflexivity.
Defined.

(** ** Loading the context *)

Lemma modify_app_absent {V : Type} k (f : V -> V) (d d' : Dict.t V) :
  Dict.mem k d = false ->
  Dict.modify k f (d ++ d') = d ++ Dict.modify k f d'.
Proof.
  unfold Dict.mem.
  induction d as [|[k0 v0] rest IH]; cbn; [reflexivity|].
  destruct (String.eqb k k0); [discriminate|].
  intros H. now rewrite IH.
Qed.

Lemma set_absent {V : Type} k (v : V) (d : Dict.t V) :
  Dict.mem k d = false -> Dict.set k v d = d ++ [(k, v)].
Proof.
  unfold Dict.mem.
  induction d as [|[k0 v0] rest IH]; cbn; [reflexivity|].
  destruct (String.eqb k k0); [discriminate|].
  intros H. now rewrite IH.
Qed.

Lemma mem_app_singleton {V : Type} k (v : V) (d : Dict.t V) :
  Dict.mem k (d ++ [(k, v)]) = true.
Proof.
  unfold Dict.mem.
  induction d as [|[k0 v0] rest IH]; cbn.
  - now rewrite String.eqb_refl.
  - destruct (String.eqb k k0); [reflexivity | exact IH].
Qed.

Lemma alias_ref_eta (m : alias_ref) :
  {| al_type := al_type m; al_id := al_id m |} = m.
Proof. now destruct m. Qed.

(** The inner loop on an alias that is already listed last. *)
Lemma add_alias_mappings_present alias acc refs mappings :
  Dict.mem alias acc = false ->
  fold_left (add_alias_mapping alias) mappings (acc ++ [(alias, refs)])
  = acc ++ [(alias, refs ++ mappings)].
Proof.
  intros Habs. revert refs.
  induction mappings as [|m ms IH]; intros refs; cbn [fold_left].
  - now rewrite app_nil_r.
  - unfold add_alias_mapping at 2.
    rewrite DictFacts.setdefault_get_present by apply mem_app_singleton.
    rewrite modify_app_absent by exact Habs. cbn [Dict.modify].
    rewrite String.eqb_refl, alias_ref_eta, IH.
    now rewrite <- app_assoc.
Qed.

(** The inner loop on an alias that is not listed yet. *)
Lemma add_alias_mappings_absent alias acc mappings :
  Dict.mem alias acc = false ->
  fold_left (add_alias_mapping alias) mappings acc
  = match mappings with
    | [] => acc
    | _ :: _ => acc ++ [(alias, mappings)]
    end.
Proof.
  intros Habs. destruct mappings as [|m ms]; [reflexivity|].
  cbn [fold_left]. unfold add_alias_mapping at 2. unfold Dict.setdefault.
  rewrite Habs, (set_absent _ _ _ Habs).
  rewrite modify_app_absent by exact Habs. cbn [Dict.modify].
  rewrite String.eqb_refl, alias_ref_eta. cbn [app].
  now rewrite add_alias_mappings_present.
Qed.

Lemma keys_filter_incl {V : Type} (p : string * V -> bool) (d : Dict.t V) k :
  In k (Dict.keys (filter p d)) -> In k (Dict.keys d).
Proof.
  unfold Dict.keys. rewrite !in_map_iff.
  intros [kv [Hk Hin]]. apply filter_In in Hin. exists kv. tauto.
Qed.

Lemma build_alias_fold alias_index acc :
  NoDup (Dict.keys acc ++ Dict.keys alias_index) ->
  fold_left
    (fun acc entry => fold_left (add_alias_mapping (fst entry)) (snd entry) acc)
    alias_index acc
  = acc ++ filter (fun entry => negb (length (snd entry) =? 0)%nat) alias_index.
Proof.
  revert acc. induction alias_index as [|[alias mappings] rest IH]; intros acc Hnd.
  - cbn. now rewrite app_nil_r.
  - cbn [fold_left fst snd filter].
    assert (Habs : Dict.mem alias acc = false).
    { apply DictFacts.mem_false_iff. intros Hin.
      apply NoDup_remove_2 in Hnd. apply Hnd, in_or_app. now left. }
    rewrite (add_alias_mappings_absent _ _ _ Habs).
    assert (Hnd' : NoDup (Dict.keys acc ++ Dict.keys rest)).
    { now apply NoDup_remove_1 in Hnd. }
    destruct mappings as [|m ms]; cbn [length Nat.eqb negb].
    + now apply IH.
    + rewrite IH.
      * now rewrite <- app_assoc.
      * unfold Dict.keys in *. rewrite map_app. cbn [map fst].
        rewrite <- app_assoc. cbn [app].
        apply NoDup_Add with (a := alias) (l := map fst acc ++ map fst rest);
          [apply Add_app|].
        split; [exact Hnd' | now apply NoDup_remove_2 in Hnd].
Qed.

(** X7.  [load_context] hands back the stored document and its entity registry
    unchanged, and an alias map that is the stored alias index without the
    aliases whose mapping list is empty: those aliases are dropped, every other
    alias keeps its mappings, in the same order. *)
Theorem load_context_alias_map (st : state) :
  NoDup (Dict.keys (st_alias_index st)) ->
  load_context st
  = (st, st_entities_v3 st,
     filter (fun entry => negb (length (snd entry) =? 0)%nat) (st_alias_index st)).
Proof.
  intros Hnd. unfold load_context, build_alias_to_entities.
  now rewrite build_alias_fold.
Qed.

Lemma load_context_alias_map_witness :
  snd (load_context state_with_empty_alias)
  = [("叶凡", [ {| al_type := "角色"; al_id := "yefan" |} ]);
     ("小区", [ {| al_type := "地点"; al_id := "jingya_community" |};
                {| al_type := "地点"; al_id := "old_community" |} ])].
Proof.
  rewrite (load_context_alias_map state_with_empty_alias).
  - reflexivity.
  - repeat (constructor; [simpl; intuition discriminate|]). constructor.
Defined.

(** ** Merging: failure, metadata, relationships, aliases *)

(** X8.  [update_state] fails exactly when the document has no ['metadata']
    key, and then with [KeyError] for that key, whatever the proposals are.
    Otherwise it returns a document whose metadata has current_chapter 1 and
    updated_at the clock reading, and every other metadata key as before. *)
Theorem update_state_metadata now st appeared entities_new state_changes rels :
  (forall e,
      update_state now st appeared entities_new state_changes rels = Err e
      <-> st_metadata st = None /\ e = KeyError "metadata")
  /\ (forall st',
         update_state now st appeared entities_new state_changes rels = Ok st' ->
         exists metadata metadata',
           st_metadata st = Some metadata
           /\ st_metadata st' = Some metadata'
           /\ Dict.get "current_chapter" metadata' = Some (VInt 1)
           /\ Dict.get "updated_at" metadata' = Some (VStr (now (length rels)))
           /\ forall key,
                key <> "current_chapter" -> key <> "updated_at" ->
                Dict.get key metadata' = Dict.get key metadata).
Proof.
  unfold update_state.
  destruct (register_all entities_new (st_entities_v3 st, st_alias_index st))
    as [entities_v3 alias_index].
  destruct (st_metadata st) as [metadata|]; split.
  - intros e. split; [discriminate | intros [H _]; discriminate H].
  - intros st' [= <-]. exists metadata. eexists. cbn [st_metadata].
    split_all; try reflexivity.
    + rewrite DictFacts.get_set_ne by discriminate. apply DictFacts.get_set_eq.
    + apply DictFacts.get_set_eq.
    + intros key H1 H2.
      rewrite DictFacts.get_set_ne by congruence.
      now rewrite DictFacts.get_set_ne by congruence.
  - intros e. split; [intros [= <-]; now split | intros [_ ->]; reflexivity].
  - discriminate.
Qed.

Lemma update_state_metadata_witness :
  update_state sample_clock state_without_metadata [yefan_appeared]
    [jingya_community_new] [yefan_location_change] [landlord_tenant]
  = Err (KeyError "metadata")
  /\ exists st' metadata',
       update_state sample_clock stored_state [] [] [] [landlord_tenant] = Ok st'
       /\ st_metadata st' = Some metadata'
       /\ Dict.get "current_chapter" metadata' = Some (VInt 1).
Proof.
  split.
  - apply (proj1 (update_state_metadata sample_clock state_without_metadata
                    [yefan_appeared] [jingya_community_new]
                    [yefan_location_change] [landlord_tenant])).
    split; reflexivity.
  - eexists.
    assert (H : update_state sample_clock stored_state [] [] [] [landlord_tenant]
                = Ok _) by reflexivity.
    destruct (proj2 (update_state_metadata sample_clock stored_state [] [] []
                       [landlord_tenant]) _ H)
      as (md & md' & _ & Hmd' & Hcur & _).
    exists md'. split; [exact H|]. split; [exact Hmd' | exact Hcur].
Defined.

Lemma stamp_relationships_spec now k rels :
  length (stamp_relationships now k rels) = length rels
  /\ map edge_of (stamp_relationships now k rels) = rels
  /\ Forall (fun rel => rel_chapter rel = 1%Z) (stamp_relationships now k rels)
  /\ map rel_created_at (stamp_relationships now k rels)
     = map now (seq k (length rels)).
Proof.
  revert k. induction rels as [|rel rest IH]; intros k; cbn.
  - repeat split. constructor.
  - destruct (IH (S k)) as (H1 & H2 & H3 & H4).
    rewrite H1, H2, H4. split_all; try reflexivity.
    + now destruct rel.
    + constructor; [reflexivity | exact H3].
Qed.

(** X9.  [update_state] only appends to the relationship list (a missing
    list reads as empty): the edges that were stored stay in front, unchanged,
    followed by one edge per proposal, in order, with the proposal's from, to,
    type and description and chapter 1.  Neither end of an edge is looked up
    in the registry, and an edge that is already stored is stored again. *)
Theorem update_state_appends_relationships
    now st appeared entities_new state_changes rels st' :
  update_state now st appeared entities_new state_changes rels = Ok st' ->
  exists added,
    relationships_of st' = relationships_of st ++ added
    /\ st_relationships st' <> None
    /\ map edge_of added = rels
    /\ Forall (fun rel => rel_chapter rel = 1%Z) added
    /\ map rel_created_at added = map now (seq 0 (length rels)).
Proof.
  intros H. apply update_state_relationships in H.
  exists (stamp_relationships now 0 rels).
  destruct (stamp_relationships_spec now 0 rels) as (_ & H2 & H3 & H4).
  unfold relationships_of. rewrite H. split_all; try assumption.
  - reflexivity.
  - discriminate.
Qed.

Lemma update_state_appends_relationships_witness :
  exists st',
    update_state sample_clock stored_state [] [] []
      [landlord_tenant; landlord_tenant] = Ok st'
    /\ map edge_of (relationships_of st') = [landlord_tenant; landlord_tenant].
Proof.
  eexists.
  assert (H : update_state sample_clock stored_state [] [] []
                [landlord_tenant; landlord_tenant] = Ok _) by reflexivity.
  split; [exact H|].
  destruct (update_state_appends_relationships _ _ _ _ _ _ _ H)
    as (added & Hrel & _ & Hedges & _).
  rewrite Hrel. cbn [relationships_of stored_state st_relationships app].
  exact Hedges.
Defined.

Lemma snd_register_all entities_new acc :
  snd (register_all entities_new acc)
  = fold_left (fun a n => register_alias n a) entities_new (snd acc).
Proof.
  unfold register_all. revert acc.
  induction entities_new as [|n ns IH]; intros acc; simpl; [reflexivity|].
  now rewrite IH.
Qed.

Lemma update_state_alias_index now st appeared entities_new state_changes rels st' :
  update_state now st appeared entities_new state_changes rels = Ok st' ->
  st_alias_index st'
  = fold_left (fun a n => register_alias n a) entities_new (st_alias_index st).
Proof.
  unfold update_state.
  pose proof (snd_register_all entities_new (st_entities_v3 st, st_alias_index st))
    as Hs.
  destruct (register_all entities_new (st_entities_v3 st, st_alias_index st))
    as [entities_v3 alias_index].
  simpl in Hs. subst alias_index.
  destruct (st_metadata st); [|discriminate].
  now intros [= <-].
Qed.

Lemma get_default_register_alias new_entity alias_index alias :
  Dict.get_default alias [] (register_alias new_entity alias_index)
  = Dict.get_default alias [] alias_index
    ++ (if String.eqb (ne_name new_entity) alias
        then [alias_ref_of new_entity] else []).
Proof.
  unfold register_alias, Dict.get_default.
  destruct (String.eqb (ne_name new_entity) alias) eqn:E.
  - apply String.eqb_eq in E. subst alias.
    rewrite DictFacts.get_modify_eq, DictFacts.get_setdefault_eq.
    reflexivity.
  - apply String.eqb_neq in E.
    rewrite DictFacts.get_modify_ne by exact E.
    rewrite DictFacts.get_setdefault_ne by exact E.
    now rewrite app_nil_r.
Qed.

(** X10.  The alias index only grows by appending: after a merge, the
    references listed under any alias are those listed before, in the same
    order, followed by one reference (type, id) for each new entity of that
    name, in proposal order.  Nothing is removed and nothing is deduplicated:
    proposing the same entity again lists it again. *)
Theorem update_state_appends_aliases
    now st appeared entities_new state_changes rels st' alias :
  update_state now st appeared entities_new state_changes rels = Ok st' ->
  Dict.get_default alias [] (st_alias_index st')
  = Dict.get_default alias [] (st_alias_index st)
    ++ map alias_ref_of
         (filter (fun n => String.eqb (ne_name n) alias) entities_new).
Proof.
  intros H. rewrite (update_state_alias_index _ _ _ _ _ _ _ H). clear H.
  generalize (st_alias_index st) as a.
  induction entities_new as [|n ns IH]; intros a; cbn [fold_left filter].
  - now rewrite app_nil_r.
  - rewrite IH, get_default_register_alias.
    destruct (String.eqb (ne_name n) alias); cbn [map].
    + now rewrite <- app_assoc.
    + now rewrite app_nil_r.
Qed.

Lemma update_state_appends_aliases_witness :
  exists st',
    update_state sample_clock stored_state [] [yefan_again; yefan_again] [] []
    = Ok st'
    /\ Dict.get_default "叶凡" [] (st_alias_index st')
       = [ {| al_type := "角色"; al_id := "yefan" |};
           {| al_type := "角色"; al_id := "yefan" |};
           {| al_type := "角色"; al_id := "yefan" |} ].
Proof.
  eexists.
  assert (H : update_state sample_clock stored_state [] [yefan_again; yefan_again]
                [] [] = Ok _) by reflexivity.
  split; [exact H|].
  exact (eq_trans (update_state_appends_aliases _ _ _ _ _ _ _ "叶凡" H) eq_refl).
Defined.

(** ** Merging: the registry *)

Lemma lookup_apply_change_untargeted change r entity_type entity_id :
  sc_entity_id change <> entity_id ->
  lookup entity_type entity_id (fst (apply_change change r))
  = lookup entity_type entity_id r.
Proof.
  intros Hne. unfold lookup.
  induction r as [|[ty entities] rest IH]; simpl; [reflexivity|].
  destruct (Dict.mem (sc_entity_id change) entities); simpl.
  - destruct (String.eqb entity_type ty); [|reflexivity].
    now apply DictFacts.get_modify_ne.
  - destruct (apply_change change rest) as [rest' found]. simpl in *.
    destruct (String.eqb entity_type ty); [reflexivity | exact IH].
Qed.

Lemma lookup_apply_changes_untargeted state_changes r entity_type entity_id :
  Forall (fun change => sc_entity_id change <> entity_id) state_changes ->
  lookup entity_type entity_id (apply_changes state_changes r)
  = lookup entity_type entity_id r.
Proof.
  unfold apply_changes. intros Hall. revert r.
  induction Hall as [|c cs Hc _ IH]; intros r; simpl; [reflexivity|].
  rewrite IH. now apply lookup_apply_change_untargeted.
Qed.

(** X11.  After a merge, an entity that no state change names is bound as
    follows: if some proposal registers its type and id, to the freshly built
    record of the last such proposal (empty history, initial current state),
    replacing whatever was stored; otherwise to exactly the record stored
    before, or to nothing if nothing was stored. *)
Theorem update_state_untargeted_entity
    now st appeared entities_new state_changes rels st' entity_type entity_id :
  update_state now st appeared entities_new state_changes rels = Ok st' ->
  Forall (fun change => sc_entity_id change <> entity_id) state_changes ->
  lookup entity_type entity_id (st_entities_v3 st')
  = match last_registration entity_type entity_id entities_new with
    | Some n => Some (fresh_entity n)
    | None => lookup entity_type entity_id (st_entities_v3 st)
    end.
Proof.
  intros H Hall. rewrite (update_state_registry _ _ _ _ _ _ _ H).
  unfold merge_registry.
  rewrite lookup_apply_changes_untargeted by exact Hall.
  apply lookup_register_fold.
Qed.

Lemma update_state_untargeted_entity_witness :
  exists st',
    update_state sample_clock stored_state [] [jingya_community_new; yefan_again]
      [ghost_change] [] = Ok st'
    /\ lookup "角色" "yefan" (st_entities_v3 st') = Some (fresh_entity yefan_again)
    /\ lookup "地点" "jingya_community" (st_entities_v3 st')
       = Some (fresh_entity jingya_community_new)
    /\ lookup "地点" "yefan" (st_entities_v3 st') = None.
Proof.
  eexists.
  assert (H : update_state sample_clock stored_state []
                [jingya_community_new; yefan_again] [ghost_change] [] = Ok _)
    by reflexivity.
  assert (Hall : forall id, id <> "ghost" ->
                 Forall (fun change => sc_entity_id change <> id) [ghost_change]).
  { intros id Hid. repeat constructor. cbn. congruence. }
  split; [exact H|]. split_all.
  - exact (eq_trans (update_state_untargeted_entity _ _ _ _ _ _ _ "角色" "yefan"
                       H (Hall "yefan" ltac:(discriminate))) eq_refl).
  - exact (eq_trans (update_state_untargeted_entity _ _ _ _ _ _ _ "地点"
                       "jingya_community" H
                       (Hall "jingya_community" ltac:(discriminate)))
                    eq_refl).
  - exact (eq_trans (update_state_untargeted_entity _ _ _ _ _ _ _ "地点" "yefan"
                       H (Hall "yefan" ltac:(discriminate))) eq_refl).
Defined.

Lemma find_entity_apply_change_other change r entity_id :
  sc_entity_id change <> entity_id ->
  find_entity entity_id (fst (apply_change change r)) = find_entity entity_id r.
Proof.
  intros Hne.
  induction r as [|[ty entities] rest IH]; simpl; [reflexivity|].
  destruct (Dict.mem (sc_entity_id change) entities); simpl.
  - now rewrite DictFacts.get_modify_ne by exact Hne.
  - destruct (apply_change change rest) as [rest' found]. simpl in *.
    now rewrite IH.
Qed.

(** The scan keeps finding an entity in the same bucket; what the loop did to
    it is what the changes naming its id do, in order. *)
Lemma find_entity_apply_changes state_changes r entity_id entity_type ent :
  find_entity entity_id r = Some (entity_type, ent) ->
  find_entity entity_id (apply_changes state_changes r)
  = Some (entity_type, apply_to (filter (targets entity_id) state_changes) ent).
Proof.
  unfold apply_changes, apply_to. revert r ent.
  induction state_changes as [|c cs IH]; intros r ent Hf; cbn [fold_left filter].
  - exact Hf.
  - unfold targets at 1.
    destruct (String.eqb (sc_entity_id c) entity_id) eqn:E.
    + apply String.eqb_eq in E. cbn [fold_left]. apply IH.
      rewrite <- E in *. now apply apply_change_found.
    + apply String.eqb_neq in E. apply IH.
      now rewrite find_entity_apply_change_other.
Qed.

Lemma apply_to_history state_changes ent :
  exists added,
    e_history (apply_to state_changes ent) = e_history ent ++ added
    /\ map h_field added = map sc_field state_changes
    /\ map h_new added = map sc_new state_changes
    /\ Forall (fun record => h_chapter record = 1%Z) added.
Proof.
  unfold apply_to. revert ent.
  induction state_changes as [|c cs IH]; intros ent; cbn [fold_left map].
  - exists []. rewrite app_nil_r. repeat split. constructor.
  - destruct (IH (change_entity c ent)) as (added & H1 & H2 & H3 & H4).
    exists (history_record_of c ent :: added).
    rewrite H1, change_entity_history, <- app_assoc. cbn [app map].
    rewrite H2, H3. repeat split. constructor; [reflexivity | exact H4].
Qed.

(** X12.  In the state-change loop, an entity that the scan finds receives
    exactly one history record per state change naming its id, in the order of
    the changes, after the records it had: the records carry chapter 1 and the
    field and new value of their change.  A change naming another id adds
    nothing to it. *)
Theorem apply_changes_history state_changes r entity_id entity_type ent :
  find_entity entity_id r = Some (entity_type, ent) ->
  exists ent' added,
    find_entity entity_id (apply_changes state_changes r)
    = Some (entity_type, ent')
    /\ e_history ent' = e_history ent ++ added
    /\ map h_field added
       = map sc_field (filter (targets entity_id) state_changes)
    /\ map h_new added = map sc_new (filter (targets entity_id) state_changes)
    /\ Forall (fun record => h_chapter record = 1%Z) added
    /\ length (e_history ent')
       = (length (e_history ent)
          + length (filter (targets entity_id) state_changes))%nat.
Proof.
  intros Hf.
  destruct (apply_to_history (filter (targets entity_id) state_changes) ent)
    as (added & H1 & H2 & H3 & H4).
  exists (apply_to (filter (targets entity_id) state_changes) ent), added.
  split_all; try assumption.
  - now apply find_entity_apply_changes.
  - rewrite H1, length_app. f_equal.
    now rewrite <- (length_map h_field), H2, length_map.
Qed.

Lemma apply_changes_history_witness :
  exists ent',
    find_entity "yefan"
      (apply_changes [yefan_location_change; ghost_change; yefan_status_change]
         (st_entities_v3 stored_state))
    = Some ("角色", ent')
    /\ length (e_history ent') = 3%nat.
Proof.
  destruct (apply_changes_history
              [yefan_location_change; ghost_change; yefan_status_change]
              (st_entities_v3 stored_state) "yefan" "角色" yefan_entity eq_refl)
    as (ent' & added & Hf & _ & _ & _ & _ & Hlen).
  exists ent'. split; [exact Hf | exact Hlen].
Defined.

Lemma get_assign_all kvs k d :
  Dict.get k (assign_all kvs d)
  = match last_assignment k kvs with
    | Some v => Some v
    | None => Dict.get k d
    end.
Proof.
  unfold assign_all. revert d.
  induction kvs as [|[k0 v0] rest IH]; intros d; cbn [fold_left last_assignment].
  - reflexivity.
  - rewrite IH. destruct (last_assignment k rest); [reflexivity|].
    cbn [fst snd]. destruct (String.eqb k k0) eqn:E.
    + apply String.eqb_eq in E. subst. apply DictFacts.get_set_eq.
    + apply String.eqb_neq in E. apply DictFacts.get_set_ne. congruence.
Qed.

Lemma last_assignment_assignments field state_changes :
  field <> "last_chapter" ->
  last_assignment field (assignments state_changes)
  = last_value field state_changes.
Proof.
  intros Hne. unfold assignments.
  induction state_changes as [|c cs IH]; cbn [flat_map app last_assignment last_value].
  - reflexivity.
  - rewrite IH. destruct (last_value field cs); [reflexivity|].
    cbn [fst snd].
    destruct (String.eqb field "last_chapter") eqn:E; [|reflexivity].
    apply String.eqb_eq in E. contradiction.
Qed.

Lemma last_assignment_last_chapter state_changes :
  state_changes <> [] ->
  last_assignment "last_chapter" (assignments state_changes) = Some (VInt 1).
Proof.
  unfold assignments.
  induction state_changes as [|c cs IH]; [congruence|]. intros _.
  cbn [flat_map app last_assignment fst snd].
  destruct cs as [|c' cs'].
  - cbn [flat_map last_assignment]. reflexivity.
  - now rewrite IH.
Qed.

(** X13.  In the state-change loop the last write wins: for an entity that the
    scan finds, a field of its current state ends with the new value of the
    last state change naming the entity's id and that field, and a field that
    no such change names keeps its value (or stays absent).  The exception is
    last_chapter, which is 1 as soon as any change names the entity. *)
Theorem apply_changes_last_write_wins
    state_changes r entity_id entity_type ent field :
  find_entity entity_id r = Some (entity_type, ent) ->
  exists ent',
    find_entity entity_id (apply_changes state_changes r)
    = Some (entity_type, ent')
    /\ (field <> "last_chapter" ->
        Dict.get field (e_current ent')
        = match last_value field (filter (targets entity_id) state_changes) with
          | Some v => Some v
          | None => Dict.get field (e_current ent)
          end)
    /\ (filter (targets entity_id) state_changes <> [] ->
        Dict.get "last_chapter" (e_current ent') = Some (VInt 1))
    /\ (filter (targets entity_id) state_changes = [] -> ent' = ent).
Proof.
  intros Hf.
  exists (apply_to (filter (targets entity_id) state_changes) ent).
  destruct (apply_to_fields (filter (targets entity_id) state_changes) ent)
    as (_ & _ & _ & _ & _ & _ & _ & Hcur).
  split_all.
  - now apply find_entity_apply_changes.
  - intros Hne. rewrite Hcur, get_assign_all.
    now rewrite last_assignment_assignments.
  - intros Hhit. rewrite Hcur, get_assign_all.
    now rewrite last_assignment_last_chapter.
  - intros ->. reflexivity.
Qed.

Lemma apply_changes_last_write_wins_witness :
  exists ent',
    find_entity "yefan"
      (apply_changes
         [yefan_location_change; guwanqing_location_change; yefan_status_change]
         (st_entities_v3 stored_state))
    = Some ("角色", ent')
    /\ Dict.get "location" (e_current ent') = Some (VStr "静雅小区3号楼602室")
    /\ Dict.get "last_chapter" (e_current ent') = Some (VInt 1).
Proof.
  destruct (apply_changes_last_write_wins
              [yefan_location_change; guwanqing_location_change;
               yefan_status_change]
              (st_entities_v3 stored_state) "yefan" "角色" yefan_entity
              "location" eq_refl)
    as (ent' & Hf & Hfield & Hlast & _).
  exists ent'. split; [exact Hf|]. split.
  - exact (eq_trans (Hfield ltac:(discriminate)) eq_refl).
  - exact (Hlast ltac:(discriminate)).
Defined.

(** X14.  When the same id is stored under two types, the state-change loop
    only ever reaches the record in the earlier bucket: the record stored
    under any other type is left exactly as it was, whatever the changes. *)
Theorem apply_changes_first_bucket_only
    state_changes r entity_id owner ent entity_type :
  NoDup (Dict.keys r) ->
  find_entity entity_id r = Some (owner, ent) ->
  entity_type <> owner ->
  lookup entity_type entity_id (apply_changes state_changes r)
  = lookup entity_type entity_id r.
Proof.
  intros Hnd Hf Hne.
  rewrite (lookup_apply_changes_owner _ _ _ _ Hnd).
  unfold owner_is. rewrite find_entity_owner, Hf. cbn [option_map fst].
  destruct (String.eqb owner entity_type) eqn:E; [|reflexivity].
  apply String.eqb_eq in E. congruence.
Qed.

Lemma apply_changes_first_bucket_only_witness :
  lookup "物品" "yefan"
    (apply_changes [yefan_location_change; yefan_status_change]
       registry_with_shared_id)
  = Some yefan_as_item.
Proof.
  refine (eq_trans
            (apply_changes_first_bucket_only
               [yefan_location_change; yefan_status_change]
               registry_with_shared_id "yefan" "角色" yefan_entity "物品"
               _ eq_refl _) eq_refl).
  - repeat (constructor; [simpl; intuition discriminate|]). constructor.
  - discriminate.
Defined.

(** ** The relational index *)

Lemma insert_appearances_spec chapter seq appeared :
  map appeared_of (insert_appearances chapter seq appeared) = appeared
  /\ Forall (fun row => ap_chapter row = chapter)
            (insert_appearances chapter seq appeared)
  /\ Forall (fun row => (seq < ap_rowid row
                         <= seq + Z.of_nat (length appeared))%Z)
            (insert_appearances chapter seq appeared)
  /\ NoDup (map ap_rowid (insert_appearances chapter seq appeared)).
Proof.
  revert seq. induction appeared as [|ent rest IH]; intros seq.
  - cbn. repeat split; constructor.
  - destruct (IH (seq + 1)%Z) as (H1 & H2 & H3 & H4).
    cbn [insert_appearances map]. rewrite H1. split_all.
    + now destruct ent.
    + constructor; [reflexivity | exact H2].
    + constructor.
      * cbn [ap_rowid length]. lia.
      * eapply Forall_impl; [|exact H3]. cbn [length]. intros row. lia.
    + constructor; [|exact H4].
      cbn [ap_rowid]. intros Hin. apply in_map_iff in Hin.
      destruct Hin as [row [Heq Hin]].
      rewrite Forall_forall in H3. specialize (H3 _ Hin). lia.
Qed.

Lemma insert_scenes_spec chapter seq scenes :
  map scene_of (insert_scenes chapter seq scenes) = scenes
  /\ Forall (fun row => sr_chapter row = chapter)
            (insert_scenes chapter seq scenes)
  /\ Forall (fun row => (seq < sr_rowid row <= seq + Z.of_nat (length scenes))%Z)
            (insert_scenes chapter seq scenes)
  /\ NoDup (map sr_rowid (insert_scenes chapter seq scenes)).
Proof.
  revert seq. induction scenes as [|sc rest IH]; intros seq.
  - cbn. repeat split; constructor.
  - destruct (IH (seq + 1)%Z) as (H1 & H2 & H3 & H4).
    cbn [insert_scenes map]. rewrite H1. split_all.
    + now destruct sc.
    + constructor; [reflexivity | exact H2].
    + constructor.
      * cbn [sr_rowid length]. lia.
      * eapply Forall_impl; [|exact H3]. cbn [length]. intros row. lia.
    + constructor; [|exact H4].
      cbn [sr_rowid]. intros Hin. apply in_map_iff in Hin.
      destruct Hin as [row [Heq Hin]].
      rewrite Forall_forall in H3. specialize (H3 _ Hin). lia.
Qed.

Lemma filter_negb_other_chapter chapter row rows :
  ch_chapter row = chapter ->
  filter (fun r => negb (ch_chapter r =? chapter)%Z)
         (insert_or_replace_chapter row rows)
  = filter (fun r => negb (ch_chapter r =? chapter)%Z) rows.
Proof.
  intros <-. unfold insert_or_replace_chapter.
  rewrite filter_app, filter_filter. cbn [filter].
  rewrite Z.eqb_refl. cbn [negb]. apply app_nil_r.
Qed.

(** X15.  [insert_chapter_data] writes the chapter row by key: afterwards the
    chapters relation holds exactly one row for the chapter, with the title,
    location and word count given, the ids of the appeared entities in order
    and the scenes; the rows of every other chapter are the rows that were
    there, in the same order. *)
Theorem insert_chapter_data_chapter_row
    now db chapter title location word_count appeared scenes :
  let db' :=
    insert_chapter_data now db chapter title location word_count appeared
      scenes in
  filter (fun row => (ch_chapter row =? chapter)%Z) (db_chapters db')
  = [ {| ch_chapter := chapter; ch_title := title; ch_location := location;
         ch_word_count := word_count; ch_characters := map ea_id appeared;
         ch_scenes := scenes; ch_created_at := now 0%nat |} ]
  /\ filter (fun row => negb (ch_chapter row =? chapter)%Z) (db_chapters db')
     = filter (fun row => negb (ch_chapter row =? chapter)%Z) (db_chapters db).
Proof.
  cbv zeta. cbn [insert_chapter_data db_chapters]. split.
  - match goal with
    | |- context [insert_or_replace_chapter ?row ?rows] =>
        exact (insert_or_replace_chapter_one_row row rows)
    end.
  - now apply filter_negb_other_chapter.
Qed.

(** X16.  [insert_chapter_data] only appends to entity_appearances and to
    scenes: the rows that were there stay in front, unchanged, whatever
    chapter they belong to, followed by one row per appeared entity and one
    row per scene, in order, each with the given chapter number and the data
    of its entity or scene.  Rows the same chapter already had are kept. *)
Theorem insert_chapter_data_appends
    now db chapter title location word_count appeared scenes :
  let db' :=
    insert_chapter_data now db chapter title location word_count appeared
      scenes in
  exists new_appearances new_scenes,
    db_entity_appearances db' = db_entity_appearances db ++ new_appearances
    /\ map appeared_of new_appearances = appeared
    /\ Forall (fun row => ap_chapter row = chapter) new_appearances
    /\ db_scenes db' = db_scenes db ++ new_scenes
    /\ map scene_of new_scenes = scenes
    /\ Forall (fun row => sr_chapter row = chapter) new_scenes.
Proof.
  cbv zeta.
  exists (insert_appearances chapter (db_appearances_seq db) appeared),
         (insert_scenes chapter (db_scenes_seq db) scenes).
  destruct (insert_appearances_spec chapter (db_appearances_seq db) appeared)
    as (A1 & A2 & _ & _).
  destruct (insert_scenes_spec chapter (db_scenes_seq db) scenes)
    as (S1 & S2 & _ & _).
  split_all; try assumption; reflexivity.
Qed.

Lemma nodup_filter_app_singleton {A : Type} (key : A -> Z) (row : A) rows :
  NoDup (map key rows) ->
  NoDup (map key (filter (fun r => negb (key r =? key row)%Z) rows ++ [row])).
Proof.
  intros Hnd. rewrite map_app. cbn [map].
  apply NoDup_app.
  - induction rows as [|x l IH]; cbn [filter map]; [constructor|].
    inversion Hnd as [|? ? Hx Hl]; subst.
    destruct (negb (key x =? key row)%Z); [|now apply IH].
    cbn [map]. constructor; [|now apply IH].
    intros Hin. apply Hx. apply in_map_iff in Hin.
    destruct Hin as [y [Hy Hin]]. apply filter_In in Hin.
    apply in_map_iff. exists y. tauto.
  - repeat constructor. intros [].
  - intros k Hin [Hk|[]]. subst k.
    apply in_map_iff in Hin. destruct Hin as [y [Hy Hin]].
    apply filter_In in Hin. destruct Hin as [_ Hneg].
    rewrite Hy, Z.eqb_refl in Hneg. discriminate.
Qed.

(** X17.  [insert_chapter_data] keeps the keys of the index in order: if
    chapter numbers are unique in chapters, and the surrogate keys of
    entity_appearances and of scenes are unique, positive and bounded by their
    counters, the same holds afterwards; the empty index is such an index. *)
Theorem insert_chapter_data_keys
    now db chapter title location word_count appeared scenes :
  index_keys_ok db ->
  index_keys_ok
    (insert_chapter_data now db chapter title location word_count appeared
       scenes)
  /\ index_keys_ok empty_db.
Proof.
  intros (Hch & Hap & Hapb & Hsc & Hscb & Hapseq & Hscseq). split.
  - unfold index_keys_ok.
    cbn [insert_chapter_data db_chapters db_entity_appearances
           db_appearances_seq db_scenes db_scenes_seq].
    destruct (insert_appearances_spec chapter (db_appearances_seq db) appeared)
      as (_ & _ & A3 & A4).
    destruct (insert_scenes_spec chapter (db_scenes_seq db) scenes)
      as (_ & _ & S3 & S4).
    rewrite Forall_forall in Hapb, Hscb, A3, S3.
    split_all.
    + unfold insert_or_replace_chapter.
      match goal with
      | |- NoDup (map ch_chapter (filter _ ?rows ++ [?row])) =>
          exact (nodup_filter_app_singleton ch_chapter row rows Hch)
      end.
    + rewrite map_app. apply NoDup_app; [exact Hap | exact A4 |].
      intros k H1 H2. apply in_map_iff in H1, H2.
      destruct H1 as [r1 [E1 I1]]. destruct H2 as [r2 [E2 I2]].
      specialize (Hapb _ I1). specialize (A3 _ I2). lia.
    + rewrite Forall_forall. intros row Hin. apply in_app_or in Hin.
      destruct Hin as [Hin|Hin]; [specialize (Hapb _ Hin) | specialize (A3 _ Hin)];
        lia.
    + rewrite map_app. apply NoDup_app; [exact Hsc | exact S4 |].
      intros k H1 H2. apply in_map_iff in H1, H2.
      destruct H1 as [r1 [E1 I1]]. destruct H2 as [r2 [E2 I2]].
      specialize (Hscb _ I1). specialize (S3 _ I2). lia.
    + rewrite Forall_forall. intros row Hin. apply in_app_or in Hin.
      destruct Hin as [Hin|Hin]; [specialize (Hscb _ Hin) | specialize (S3 _ Hin)];
        lia.
    + lia.
    + lia.
  - unfold index_keys_ok, empty_db. cbn. split_all; try constructor; lia.
Qed.

Lemma insert_chapter_data_keys_witness :
  index_keys_ok index_with_chapter_2
  /\ index_keys_ok
       (insert_chapter_data sample_clock index_with_chapter_2 1 "租房" "静雅小区"
          4500 [yefan_appeared; guwanqing_appeared]
          (chunk_scenes plain_scenario_text)).
Proof.
  assert (H0 : index_keys_ok empty_db).
  { unfold index_keys_ok, empty_db. cbn. split_all; try constructor; lia. }
  assert (H2 : index_keys_ok index_with_chapter_2).
  { exact (proj1 (insert_chapter_data_keys sample_clock empty_db 2 "搬家"
                    "静雅小区" 3900 [guwanqing_appeared]
                    (chunk_scenes EmptyString) H0)). }
  split; [exact H2|].
  exact (proj1 (insert_chapter_data_keys sample_clock index_with_chapter_2 1
                  "租房" "静雅小区" 4500 [yefan_appeared; guwanqing_appeared]
                  (chunk_scenes plain_scenario_text) H2)).
Defined.

(** ** The main flow, end to end *)

Lemma main_unfold now_state now_index now_report text state_file index_file :
  main now_state now_index now_report text state_file index_file
  = (let ex := extract_entities text [] [] in
     st' <- update_state now_state state_file (entities_appeared ex)
              (entities_new ex) (state_changes ex) [landlord_tenant] ;;
     Ok {| mr_state := st';
           mr_index :=
             insert_chapter_data now_index (create_index_db index_file) 1
               "租房" "静雅小区" 4500 (entities_appeared ex) (chunk_scenes text);
           mr_style_samples := evaluate_style_sample 80 text;
           mr_report :=
             generate_report now_report 1 (entities_appeared ex)
               (entities_new ex) (state_changes ex) [landlord_tenant]
               (chunk_scenes text) [that_gentleman] []
               [adoption that_gentleman yefan_candidate high_reason] |}).
Proof.
  unfold main, load_context.
  change (uncertain (extract_entities text (st_entities_v3 state_file)
                       (build_alias_to_entities (st_alias_index state_file))))
    with [that_gentleman].
  rewrite disambiguate_that_gentleman. reflexivity.
Qed.

(** X18.  [main] fails exactly when the stored document has no ['metadata']
    key, with [KeyError] for that key, whatever the chapter text and the index
    file hold; the disambiguation step never makes it fail.  When it returns,
    it has stored what the merge and the index write give on the index with
    its tables created, and its style samples are those for score 80. *)
Theorem main_outcome now_state now_index now_report text state_file index_file :
  (forall e,
      main now_state now_index now_report text state_file index_file = Err e
      <-> st_metadata state_file = None /\ e = KeyError "metadata")
  /\ (st_metadata state_file <> None ->
      exists res,
        main now_state now_index now_report text state_file index_file = Ok res)
  /\ (forall res,
         main now_state now_index now_report text state_file index_file = Ok res ->
         process_chapter now_state now_index text
           (state_file, create_index_db index_file)
         = Ok (mr_state res, mr_index res)
         /\ mr_style_samples res = evaluate_style_sample 80 text).
Proof.
  rewrite main_unfold, process_chapter_unfold. cbv zeta.
  change (extract_entities text (st_entities_v3 state_file)
            (st_alias_index state_file))
    with (extract_entities text [] []).
  set (ex := extract_entities text [] []).
  pose proof (update_state_total now_state state_file (entities_appeared ex)
                (entities_new ex) (state_changes ex) [landlord_tenant]) as Htot.
  unfold update_state in *.
  destruct (register_all (entities_new ex)
              (st_entities_v3 state_file, st_alias_index state_file))
    as [entities_v3 alias_index].
  destruct (st_metadata state_file) as [metadata|]; cbn [bind]; split_all.
  - intros e. split; [discriminate | intros [H _]; discriminate H].
  - intros _. eauto.
  - intros res [= <-]. split; reflexivity.
  - intros e. split; [intros [= <-]; now split | intros [_ ->]; reflexivity].
  - congruence.
  - discriminate.
Qed.

Lemma main_outcome_witness :
  main sample_clock sample_clock sample_clock plain_scenario_text
    state_without_metadata None
  = Err (KeyError "metadata")
  /\ exists res,
       main sample_clock sample_clock sample_clock plain_scenario_text
         stored_state None = Ok res.
Proof.
  split.
  - apply (proj1 (main_outcome sample_clock sample_clock sample_clock
                    plain_scenario_text state_without_metadata None)).
    split; reflexivity.
  - apply (proj1 (proj2 (main_outcome sample_clock sample_clock sample_clock
                           plain_scenario_text stored_state None))).
    discriminate.
Defined.



Lemma main_registry now_state now_index now_report text state_file index_file res :
  main now_state now_index now_report text state_file index_file = Ok res ->
  st_entities_v3 (mr_state res)
  = merge_registry (entities_new (extract_entities text [] []))
      (state_changes (extract_entities text [] []))
      (st_entities_v3 state_file).
Proof.
  rewrite main_unfold. cbv zeta.
  destruct (update_state now_state state_file
              (entities_appeared (extract_entities text [] []))
              (entities_new (extract_entities text [] []))
              (state_changes (extract_entities text [] [])) [landlord_tenant])
    as [st'|e] eqn:Hupd; cbn [bind]; [|discriminate].
  intros [= <-]. cbn [mr_state].
  exact (update_state_registry _ _ _ _ _ _ _ Hupd).
Qed.

Lemma extracted_changes_name_people text entity_id :
  entity_id <> "yefan" -> entity_id <> "guwanqing" ->
  Forall (fun change => sc_entity_id change <> entity_id)
         (state_changes (extract_entities text [] [])).
Proof.
  intros H1 H2. unfold extract_entities. cbn [state_changes].
  destruct (str_in "租房" text && str_in "加微信" text),
    (str_in "租出去" text || str_in "还房贷" text);
    cbn [when app]; repeat constructor; cbn; congruence.
Qed.

(** X20.  After a run of [main] that returns, the three entities that the
    extraction can propose are bound by the text alone: jingya_community,
    602_room and middle_woman are each bound to their freshly built record
    (empty history, initial current state) when the text triggers them,
    whatever was stored under that id before, and are left as stored when it
    does not. *)
Theorem main_registers_new_entities
    now_state now_index now_report text state_file index_file res :
  main now_state now_index now_report text state_file index_file = Ok res ->
  lookup "地点" "jingya_community" (st_entities_v3 (mr_state res))
  = (if str_in "静雅小区" text then Some (fresh_entity jingya_community_new)
     else lookup "地点" "jingya_community" (st_entities_v3 state_file))
  /\ lookup "地点" "602_room" (st_entities_v3 (mr_state res))
     = (if str_in "602室" text || str_in "3号楼" text
        then Some (fresh_entity room_602_new)
        else lookup "地点" "602_room" (st_entities_v3 state_file))
  /\ lookup "角色" "middle_woman" (st_entities_v3 (mr_state res))
     = (if str_in "中年妇女" text && str_in "房东直租" text
        then Some (fresh_entity middle_woman_new)
        else lookup "角色" "middle_woman" (st_entities_v3 state_file)).
Proof.
  intros H. rewrite (main_registry _ _ _ _ _ _ _ H). unfold merge_registry.
  rewrite !lookup_apply_changes_untargeted
    by (apply extracted_changes_name_people; discriminate).
  rewrite !lookup_register_fold.
  unfold extract_entities. cbn [entities_new].
  destruct (str_in "中年妇女" text && str_in "房东直租" text),
    (str_in "静雅小区" text),
    (str_in "602室" text || str_in "3号楼" text);
    cbn [when app]; split_all; reflexivity.
Qed.

Lemma main_registers_new_entities_witness :
  exists res,
    main sample_clock sample_clock sample_clock plain_scenario_text
      stored_state None = Ok res
    /\ lookup "地点" "jingya_community" (st_entities_v3 (mr_state res))
       = Some (fresh_entity jingya_community_new)
    /\ lookup "角色" "middle_woman" (st_entities_v3 (mr_state res)) = None.
Proof.
  eexists.
  assert (H : main sample_clock sample_clock sample_clock plain_scenario_text
                stored_state None = Ok _) by (vm_compute; reflexivity).
  destruct (main_registers_new_entities _ _ _ _ _ _ _ H) as (H1 & _ & H3).
  split; [exact H|]. split.
  - exact (eq_trans H1 eq_refl).
  - exact (eq_trans H3 eq_refl).
Defined.








